(** * dakikg-ui: query builder and debounced search controller

    A shallow embedding of [src/dakikg/src/App.jsx]: the SPARQL query
    builder ([escapeSparqlStringLiteral], [buildQuery]), the response
    decoding of [fetchSparql], and the two hooks [useDebounce] and
    [useSearchResults] as an event-driven state machine for one search
    panel.

    JavaScript strings are modelled as [string], i.e. sequences of code
    units restricted to the range 0..255 (Latin-1); [trim] and
    [toLowerCase] are given for that range. *)

From Stdlib Require Import Ascii String Decimal DecimalString Bool Arith Lia.
From stdpp Require Import base list strings.

Local Open Scope stdpp_scope.
#[local] Set Warnings "-register-all".

(* ================================================================== *)
(** * Part I. The embedding *)
(* ================================================================== *)

(** ** JavaScript strings *)

Definition dquote : ascii := ascii_of_nat 34.
Definition backslash : ascii := ascii_of_nat 92.
Definition dollar : ascii := ascii_of_nat 36.
Definition ampersand : ascii := ascii_of_nat 38.
Definition backtick : ascii := ascii_of_nat 96.
Definition apostrophe : ascii := ascii_of_nat 39.
Definition slash : ascii := ascii_of_nat 47.

(** A one-character string. *)
Definition str1 (c : ascii) : string := String c EmptyString.

Definition dq : string := str1 dquote.
Definition nl : string := str1 (ascii_of_nat 10).

(** ECMAScript WhiteSpace and LineTerminator code units below 256:
    TAB, LF, VT, FF, CR, SP and NBSP. *)
Definition isWhiteSpace (c : ascii) : bool :=
  let n := nat_of_ascii c in
  ((9 <=? n) && (n <=? 13)) || (n =? 32) || (n =? 160).

Fixpoint trimStart (s : string) : string :=
  match s with
  | EmptyString => EmptyString
  | String c r => if isWhiteSpace c then trimStart r else s
  end.

Fixpoint trimEnd (s : string) : string :=
  match s with
  | EmptyString => EmptyString
  | String c r =>
      match trimEnd r with
      | EmptyString => if isWhiteSpace c then EmptyString else str1 c
      | r' => String c r'
      end
  end.

(** [String.prototype.trim] *)
Definition trim (s : string) : string := trimEnd (trimStart s).

(** Lower-case mapping of one code unit: A..Z and the Latin-1 capitals
    (0xC0..0xDE without the multiplication sign 0xD7) move up by 32. *)
Definition lowerChar (c : ascii) : ascii :=
  let n := nat_of_ascii c in
  if ((65 <=? n) && (n <=? 90))
     || ((192 <=? n) && (n <=? 222) && negb (n =? 215))
  then ascii_of_nat (n + 32) else c.

(** [String.prototype.toLowerCase] *)
Fixpoint toLowerCase (s : string) : string :=
  match s with
  | EmptyString => EmptyString
  | String c r => String (lowerChar c) (toLowerCase r)
  end.

(** [dropPrefix p s] is the rest of [s] after its prefix [p], if [p] is
    a prefix of [s]. *)
Fixpoint dropPrefix (p s : string) : option string :=
  match p with
  | EmptyString => Some s
  | String a p' =>
      match s with
      | EmptyString => None
      | String b s' => if Ascii.eqb a b then dropPrefix p' s' else None
      end
  end.

(** The first occurrence of [p] in [s]: the text before it and the text
    after it. *)
Fixpoint splitFirst (p s : string) : option (string * string) :=
  match dropPrefix p s with
  | Some rest => Some (EmptyString, rest)
  | None =>
      match s with
      | EmptyString => None
      | String c r =>
          match splitFirst p r with
          | Some (before, after) => Some (String c before, after)
          | None => None
          end
      end
  end.

(** ECMAScript GetSubstitution for a match without capture groups: in
    the replacement text, [$$] stands for a dollar sign, [$&] for the
    matched text, [$`] for the text before the match and [$'] for the
    text after it; any other dollar sign is literal. *)
Fixpoint getSubstitution (matched before after repl : string) : string :=
  match repl with
  | EmptyString => EmptyString
  | String c r1 =>
      if Ascii.eqb c dollar then
        match r1 with
        | EmptyString => str1 dollar
        | String d r2 =>
            if Ascii.eqb d dollar then
              String dollar (getSubstitution matched before after r2)
            else if Ascii.eqb d ampersand then
              matched +:+ getSubstitution matched before after r2
            else if Ascii.eqb d backtick then
              before +:+ getSubstitution matched before after r2
            else if Ascii.eqb d apostrophe then
              after +:+ getSubstitution matched before after r2
            else String dollar (getSubstitution matched before after r1)
        end
      else String c (getSubstitution matched before after r1)
  end.

(** [s.replace(pattern, repl)] with a string pattern: only the first
    occurrence is replaced, and the replacement text is expanded by
    [getSubstitution]. *)
Definition replace (pattern repl s : string) : string :=
  match splitFirst pattern s with
  | None => s
  | Some (before, after) =>
      before +:+ getSubstitution pattern before after repl +:+ after
  end.

(** [s.replace(/c/g, repl)] for a one-character pattern [c]: every
    occurrence is replaced; [before] is the text already scanned. *)
Fixpoint replaceAllFrom (c : ascii) (repl before s : string) : string :=
  match s with
  | EmptyString => EmptyString
  | String d r =>
      if Ascii.eqb d c then
        getSubstitution (str1 c) before r repl
          +:+ replaceAllFrom c repl (before +:+ str1 d) r
      else String d (replaceAllFrom c repl (before +:+ str1 d) r)
  end.

Definition replaceAll (c : ascii) (repl s : string) : string :=
  replaceAllFrom c repl EmptyString s.

(** [Array.prototype.includes] on an array of strings. *)
Definition includes (l : list string) (x : string) : bool :=
  existsb (String.eqb x) l.

(** [s.split(sep)] for a one-character separator: never empty. *)
Fixpoint split (sep : ascii) (s : string) : list string :=
  match s with
  | EmptyString => [EmptyString]
  | String c r =>
      if Ascii.eqb c sep then EmptyString :: split sep r
      else
        match split sep r with
        | seg :: segs => String c seg :: segs
        | [] => [str1 c]
        end
  end.

(** [Array.prototype.pop]: the last element, [undefined] on []. *)
Definition pop (l : list string) : option string := last l.

(** Decimal rendering of a number, as a template literal prints it. *)
Definition stringOfNat (n : nat) : string :=
  NilZero.string_of_uint (Nat.to_uint n).

(** Thrown values: an error object with its [name] and [message]. *)
Record JsError := mkJsError { err_name : string; err_message : string }.

(** [new Error(msg)] *)
Definition Error (msg : string) : JsError := mkJsError "Error" msg.
Definition TypeError (msg : string) : JsError := mkJsError "TypeError" msg.

(** The outcome of evaluating fallible code: a value or a thrown error
    (for an async function: a fulfilled or a rejected promise). *)
Inductive completion (A : Type) : Type :=
  | Return (a : A)
  | Throw (e : JsError).
Arguments Return {A} a.
Arguments Throw {A} e.

#[global] Instance completion_ret : MRet completion := fun A a => Return a.
#[global] Instance completion_bind : MBind completion := fun A B k m =>
  match m with
  | Return a => k a
  | Throw e => Throw e
  end.

(** ** The query builder *)

Definition LANG_OPTIONS : list string := ["en"; "nl"].

Record Predicates := { drug : string; ade : string }.
Definition PREDICATES : Predicates :=
  {| drug := "rdfs:label"; ade := "skos:prefLabel" |}.

(** [Object.values(PREDICATES)] *)
Definition Object_values (p : Predicates) : list string := [drug p; ade p].

Definition SPARQL_TEMPLATE : string :=
  "PREFIX rdfs: <http://www.w3.org/2000/01/rdf-schema#>" +:+ nl +:+
  "PREFIX skos: <http://www.w3.org/2004/02/skos/core#>" +:+ nl +:+
  nl +:+
  "SELECT ?e (SUBSTR(STR(?label), 1, 150) AS ?shortLabel) WHERE {" +:+ nl +:+
  "  ?e <http://www.ontotext.com/plugins/autocomplete#query> "
    +:+ dq +:+ "q0" +:+ dq +:+ " ." +:+ nl +:+
  "  ?e qPred ?label ." +:+ nl +:+
  "  FILTER(lang(?label) = " +:+ dq +:+ "qLang" +:+ dq +:+ ")" +:+ nl +:+
  "} LIMIT 10".

Definition escapeSparqlStringLiteral (value : string) : string :=
  replaceAll dquote (String backslash dq)
    (replaceAll backslash (String backslash (str1 backslash)) value).

(** The [lang] argument of [buildQuery]: a string, or absent. *)
Inductive LangArg :=
  | LangUndefined
  | LangNull
  | LangStr (s : string).

(** [lang || ''] *)
Definition langOrEmpty (lang : LangArg) : string :=
  match lang with
  | LangStr s => s
  | _ => EmptyString
  end.

(** [lang] as a template literal prints it. *)
Definition langToString (lang : LangArg) : string :=
  match lang with
  | LangUndefined => "undefined"
  | LangNull => "null"
  | LangStr s => s
  end.

Definition normalizeLang (lang : LangArg) : string :=
  toLowerCase (trim (langOrEmpty lang)).

Definition buildQuery (query predicate : string) (lang : LangArg)
  : completion string :=
  let normalizedLang := normalizeLang lang in
  if negb (includes LANG_OPTIONS normalizedLang) then
    Throw (Error ("Unsupported language: " +:+ langToString lang
                    +:+ ". Expected en or nl."))
  else if negb (includes (Object_values PREDICATES) predicate) then
    Throw (Error ("Unsupported predicate: " +:+ predicate +:+ "."))
  else
    Return
      (replace "qLang" normalizedLang
         (replace "qPred" predicate
            (replace "q0" (escapeSparqlStringLiteral query)
               SPARQL_TEMPLATE))).

(** ** Parsed JSON and the response decoding of [fetchSparql] *)

(** The value that [response.json()] yields. The numeric value of a
    number is never inspected by the program. *)
Inductive json :=
  | JNull
  | JBool (b : bool)
  | JNum (n : nat)
  | JStr (s : string)
  | JArr (items : list json)
  | JObj (props : list (string * json)).

Fixpoint lookupProp (k : string) (props : list (string * json)) : option json :=
  match props with
  | [] => None
  | (k', v) :: rest => if String.eqb k k' then Some v else lookupProp k rest
  end.

(** [v.k] on a value that is neither null nor undefined; [None] is
    [undefined]. The property names this program reads (results,
    bindings, e, shortLabel, value) are defined by no prototype, so they
    are [undefined] on everything but an object that has them. *)
Definition getProp (v : json) (k : string) : option json :=
  match v with
  | JObj props => lookupProp k props
  | _ => None
  end.

(** [v?.k] *)
Definition optChain (v : option json) (k : string) : option json :=
  match v with
  | None | Some JNull => None
  | Some v' => getProp v' k
  end.

(** [v ?? d] *)
Definition nullish (v : option json) (d : json) : json :=
  match v with
  | None | Some JNull => d
  | Some v' => v'
  end.

Record ResultRow := { id : string; label : json }.

(** [result?.e?.value ?? ''] *)
Definition uriOf (result : json) : json :=
  nullish (optChain (optChain (Some result) "e") "value") (JStr EmptyString).

(** [result?.shortLabel?.value ?? ''] *)
Definition labelOf (result : json) : json :=
  nullish (optChain (optChain (Some result) "shortLabel") "value")
          (JStr EmptyString).

(** [uri.split('/').pop() || uri] *)
Definition idOf (uri : string) : string :=
  match pop (split slash uri) with
  | Some seg => if String.eqb seg EmptyString then uri else seg
  | None => uri
  end.

(** The callback of [bindings.map]. Calling [split] on a value that is
    not a string throws. *)
Definition mapRow (result : json) : completion ResultRow :=
  let uri := uriOf result in
  let label := labelOf result in
  match uri with
  | JStr u => Return {| id := idOf u; label := label |}
  | _ => Throw (TypeError "uri.split is not a function")
  end.

Fixpoint mapRows (items : list json) : completion (list ResultRow) :=
  match items with
  | [] => Return []
  | result :: rest =>
      row ← mapRow result;
      rows ← mapRows rest;
      Return (row :: rows)
  end.

(** What the network delivers for a fetch: the status line and the
    outcome of reading the body as text and as JSON. *)
Record Response := {
  status : nat;
  statusText : string;
  bodyText : completion string;
  bodyJson : completion json
}.

(** [response.ok] *)
Definition ok (r : Response) : bool :=
  (200 <=? status r) && (status r <=? 299).

(** What [fetchSparql] resolves to: the text of a message, or rows. *)
Inductive SearchData :=
  | DataText (s : string)
  | DataRows (rows : list ResultRow).

(** [payload?.results?.bindings ?? []] *)
Definition bindingsOf (payload : json) : json :=
  nullish (optChain (optChain (Some payload) "results") "bindings") (JArr []).

(** [fetchSparql] from the point where [fetch] has delivered a response. *)
Definition decodeResponse (response : Response) : completion SearchData :=
  if negb (ok response) then
    text ← bodyText response;
    Throw (Error ("Query failed (" +:+ stringOfNat (status response) +:+ " "
                    +:+ statusText response +:+ "): "
                    +:+ (if String.eqb text EmptyString
                         then "No response body." else text)))
  else
    payload ← bodyJson response;
    match bindingsOf payload with
    | JArr items =>
        rows ← mapRows items;
        Return (if length rows =? 0 then DataText "No matches found."
                else DataRows rows)
    | _ => Throw (TypeError "bindings.map is not a function")
    end.

(** How a call of [fetch] ends when its signal is not aborted: the
    promise rejects, or a response arrives. *)
Inductive FetchOutcome :=
  | FetchRejected (e : JsError)
  | FetchResponse (r : Response).

(** [fetchSparql] from its [await fetch(...)] on. *)
Definition settleFetch (o : FetchOutcome) : completion SearchData :=
  match o with
  | FetchRejected e => Throw e
  | FetchResponse r => decodeResponse r
  end.

(** An async function up to its first await of [fetch]: it has settled
    without calling [fetch], or it has posted [body] to [url] and goes on
    from how that call ends. *)
Inductive Async (A : Type) : Type :=
  | Settled (c : completion A)
  | AwaitFetch (url body : string) (resume : FetchOutcome -> completion A).
Arguments Settled {A} c.
Arguments AwaitFetch {A} url body resume.

(** [fetchSparql]: the request is a POST of the query text with the
    headers Accept: application/sparql-results+json and Content-Type:
    application/sparql-query. *)
Definition fetchSparql (endpoint query predicate : string) (lang : LangArg)
  : Async SearchData :=
  match buildQuery query predicate lang with
  | Throw e => Settled (Throw e)
  | Return sparql => AwaitFetch endpoint sparql settleFetch
  end.

(** The rejection of a fetch whose signal has been aborted, before the
    response or while the body is read. *)
Definition AbortError : JsError :=
  mkJsError "AbortError" "The operation was aborted.".

(** ** The state of [useSearchResults] *)

Record SearchState := {
  loading : bool;
  error : option string;
  info : option string;
  results : list ResultRow
}.

(** The initial value of [useState]. *)
Definition initialState : SearchState :=
  {| loading := false; error := None; info := None; results := [] |}.

(** [(prev) => ({...prev, loading: false, error: null, info: null,
    results: []})] *)
Definition clearUpdate (prev : SearchState) : SearchState :=
  {| loading := false; error := None; info := None; results := [] |}.

(** [(prev) => ({...prev, loading: true, error: null, info: null})] *)
Definition loadingUpdate (prev : SearchState) : SearchState :=
  {| loading := true; error := None; info := None; results := results prev |}.

(** The [then] callback. *)
Definition onFulfilled (data : SearchData) (prev : SearchState) : SearchState :=
  match data with
  | DataText s =>
      {| loading := false; error := None; info := Some s; results := [] |}
  | DataRows rows =>
      {| loading := false; error := None; info := None; results := rows |}
  end.

(** [String(err)] for an error object: [Error.prototype.toString]. *)
Definition errorToString (err : JsError) : string :=
  if String.eqb (err_name err) EmptyString then err_message err
  else if String.eqb (err_message err) EmptyString then err_name err
  else err_name err +:+ ": " +:+ err_message err.

(** The [catch] callback. *)
Definition onRejected (err : JsError) (prev : SearchState) : SearchState :=
  if String.eqb (err_name err) "AbortError" then prev
  else
    {| loading := false;
       error := Some (if String.eqb (err_message err) EmptyString
                      then errorToString err else err_message err);
       info := None;
       results := [] |}.

Definition applySettlement (c : completion SearchData) (prev : SearchState)
  : SearchState :=
  match c with
  | Return data => onFulfilled data prev
  | Throw err => onRejected err prev
  end.

(** ** One search panel as a state machine *)

(** A call of [fetch]: where it went, its body, whether its signal has
    been aborted and whether its promise has settled. *)
Record Request := {
  rq_endpoint : string;
  rq_body : string;
  rq_aborted : bool;
  rq_settled : bool
}.

Definition abortRequest (r : Request) : Request :=
  {| rq_endpoint := rq_endpoint r; rq_body := rq_body r;
     rq_aborted := true; rq_settled := rq_settled r |}.

Definition settleRequest (r : Request) : Request :=
  {| rq_endpoint := rq_endpoint r; rq_body := rq_body r;
     rq_aborted := rq_aborted r; rq_settled := true |}.

(** The state of one panel of [App]: the props and the text of the
    search box, the state of [useDebounce] with its pending timeout (due
    time and captured value), the state of [useSearchResults], the calls
    of [fetch] made so far (oldest first) and the request that the
    cleanup of the current effect aborts. *)
Record Stream := {
  s_endpoint : string;
  s_predicate : string;
  s_lang : string;
  s_query : string;
  s_timer : option (nat * string);
  s_debounced : string;
  s_state : SearchState;
  s_requests : list Request;
  s_controller : option nat
}.

(** [useDebounce(drugQuery, 200)] *)
Definition delayMs : nat := 200.

Definition setInput (s : Stream) (text : string) (t : option (nat * string))
  : Stream :=
  {| s_endpoint := s_endpoint s; s_predicate := s_predicate s;
     s_lang := s_lang s; s_query := text; s_timer := t;
     s_debounced := s_debounced s; s_state := s_state s;
     s_requests := s_requests s; s_controller := s_controller s |}.

Definition setTimer (s : Stream) (t : option (nat * string)) : Stream :=
  setInput s (s_query s) t.

Definition setDebounced (s : Stream) (v : string) : Stream :=
  {| s_endpoint := s_endpoint s; s_predicate := s_predicate s;
     s_lang := s_lang s; s_query := s_query s; s_timer := s_timer s;
     s_debounced := v; s_state := s_state s;
     s_requests := s_requests s; s_controller := s_controller s |}.

Definition setLang (s : Stream) (l : string) : Stream :=
  {| s_endpoint := s_endpoint s; s_predicate := s_predicate s;
     s_lang := l; s_query := s_query s; s_timer := s_timer s;
     s_debounced := s_debounced s; s_state := s_state s;
     s_requests := s_requests s; s_controller := s_controller s |}.

Definition setEndpoint (s : Stream) (e : string) : Stream :=
  {| s_endpoint := e; s_predicate := s_predicate s;
     s_lang := s_lang s; s_query := s_query s; s_timer := s_timer s;
     s_debounced := s_debounced s; s_state := s_state s;
     s_requests := s_requests s; s_controller := s_controller s |}.

Definition setSearch (s : Stream) (st : SearchState) (rqs : list Request)
    (c : option nat) : Stream :=
  {| s_endpoint := s_endpoint s; s_predicate := s_predicate s;
     s_lang := s_lang s; s_query := s_query s; s_timer := s_timer s;
     s_debounced := s_debounced s; s_state := st;
     s_requests := rqs; s_controller := c |}.

(** The cleanup of the effect of [useSearchResults]:
    [controller.abort()]. The branch for short input returns no
    cleanup. *)
Definition useSearchResults_cleanup (s : Stream) : Stream :=
  match s_controller s with
  | Some i => setSearch s (s_state s) (alter abortRequest i (s_requests s)) None
  | None => s
  end.

(** The body of the effect of [useSearchResults]. When [fetchSparql]
    settles without calling [fetch] ([buildQuery] has thrown), its
    callback runs before any other event and there is nothing to abort. *)
Definition useSearchResults_effect (s : Stream) : Stream :=
  let trimmed := trim (s_debounced s) in
  if String.length trimmed <? 2 then
    setSearch s (clearUpdate (s_state s)) (s_requests s) None
  else
    let st := loadingUpdate (s_state s) in
    match fetchSparql (s_endpoint s) trimmed (s_predicate s)
            (LangStr (s_lang s)) with
    | Settled c => setSearch s (applySettlement c st) (s_requests s) None
    | AwaitFetch url body _ =>
        setSearch s st
          (s_requests s ++
             [{| rq_endpoint := url; rq_body := body;
                 rq_aborted := false; rq_settled := false |}])
          (Some (length (s_requests s)))
    end.

(** [useSearchResults] in a render in which one of the dependencies
    endpoint, query, predicate, lang has changed: the cleanup of the
    previous effect, then the effect. *)
Definition useSearchResults (s : Stream) : Stream :=
  useSearchResults_effect (useSearchResults_cleanup s).

(** [useDebounce] in a render with a new [value] at time [now]: the
    cleanup clears the pending timeout and the effect sets a new one. *)
Definition useDebounce (s : Stream) (now : nat) (value : string) : Stream :=
  setInput s value (Some (now + delayMs, value)).

(** The events of one panel; each is one task of the event loop, with
    the callbacks it triggers.
    - [InputChange now text]: the user changes the search box to [text]
      at time [now]; setting the same text again renders nothing.
    - [TimerFire]: the pending timeout of [useDebounce] runs
      [setDebounced(value)]; when the value is the one already held, no
      effect runs.
    - [LangChange], [EndpointChange]: the select or the endpoint field
      changes.
    - [FetchSettle i o]: the call of [fetch] of request [i] comes to its
      end and the callbacks of [useSearchResults] run. [o] is what the
      network delivers; when the signal of the request has been aborted,
      the promise rejects with an AbortError instead, whatever the
      network delivers. *)
Inductive Event :=
  | InputChange (now : nat) (text : string)
  | TimerFire
  | LangChange (l : string)
  | EndpointChange (e : string)
  | FetchSettle (i : nat) (o : FetchOutcome).

Definition step (s : Stream) (ev : Event) : Stream :=
  match ev with
  | InputChange now text =>
      if String.eqb text (s_query s) then s
      else useDebounce s now text
  | TimerFire =>
      match s_timer s with
      | None => s
      | Some (_, v) =>
          let s1 := setTimer s None in
          if String.eqb v (s_debounced s) then s1
          else useSearchResults (setDebounced s1 v)
      end
  | LangChange l =>
      if String.eqb l (s_lang s) then s else useSearchResults (setLang s l)
  | EndpointChange e =>
      if String.eqb e (s_endpoint s) then s
      else useSearchResults (setEndpoint s e)
  | FetchSettle i o =>
      match s_requests s !! i with
      | None => s
      | Some r =>
          if rq_settled r then s
          else
            let c := if rq_aborted r then Throw AbortError else settleFetch o in
            setSearch s (applySettlement c (s_state s))
              (<[i := settleRequest r]> (s_requests s)) (s_controller s)
      end
  end.

Definition run (s : Stream) (evs : list Event) : Stream := foldl step s evs.

(** The panel after mounting at time 0: both effects have run once, on
    the empty text. *)
Definition mount (endpoint predicate : string) : Stream :=
  {| s_endpoint := endpoint; s_predicate := predicate; s_lang := "en";
     s_query := EmptyString; s_timer := Some (delayMs, EmptyString);
     s_debounced := EmptyString;
     s_state := clearUpdate initialState;
     s_requests := []; s_controller := None |}.

(** Time passes to [now]: a timeout that is due runs. *)
Definition advance (now : nat) (s : Stream) : Stream :=
  match s_timer s with
  | Some (due, _) => if due <=? now then step s TimerFire else s
  | None => s
  end.

(** The user changes the text to [text] at time [now]. *)
Definition typeAt (s : Stream) (input : nat * string) : Stream :=
  step (advance input.1 s) (InputChange input.1 input.2).

Definition typeAll (s : Stream) (inputs : list (nat * string)) : Stream :=
  foldl typeAt s inputs.

(** The calls of [fetch] made on the way from [s] to [s']. *)
Definition issuedSince (s s' : Stream) : list Request :=
  drop (length (s_requests s)) (s_requests s').

(** ** The component [App]: two panels and what they display *)

(** [import.meta.env.VITE_GRAPHDB_ENDPOINT ?? '/graphdb/repositories/dakikg'];
    [None] is a variable that is not set. *)
Definition DEFAULT_ENDPOINT (env : option string) : string :=
  match env with
  | Some e => e
  | None => "/graphdb/repositories/dakikg"
  end.

Inductive Panel := DrugPanel | AdePanel.

(** The state of [App]: the drug search and the adverse event search.
    The one [endpoint] of [App] is held in both. *)
Record AppState := { drugPanel : Stream; adePanel : Stream }.

Definition panelOf (a : AppState) (p : Panel) : Stream :=
  match p with
  | DrugPanel => drugPanel a
  | AdePanel => adePanel a
  end.

Definition withPanel (a : AppState) (p : Panel) (s : Stream) : AppState :=
  match p with
  | DrugPanel => {| drugPanel := s; adePanel := adePanel a |}
  | AdePanel => {| drugPanel := drugPanel a; adePanel := s |}
  end.

(** [PREDICATES.drug] for the drug search, [PREDICATES.ade] for the
    other. *)
Definition predicateOf (p : Panel) : string :=
  match p with
  | DrugPanel => drug PREDICATES
  | AdePanel => ade PREDICATES
  end.

(** The events of [App]: typing in the endpoint field, choosing option
    number [choice] of a language select (its options are
    [LANG_OPTIONS]), typing in a search box, a timeout of a panel, and
    the end of a fetch of a panel. *)
Inductive AppEvent :=
  | EndpointInput (e : string)
  | LangSelect (p : Panel) (choice : nat)
  | SearchInput (p : Panel) (now : nat) (text : string)
  | Timeout (p : Panel)
  | Arrival (p : Panel) (i : nat) (o : FetchOutcome).

Definition appStep (a : AppState) (ev : AppEvent) : AppState :=
  match ev with
  | EndpointInput e =>
      {| drugPanel := step (drugPanel a) (EndpointChange e);
         adePanel := step (adePanel a) (EndpointChange e) |}
  | LangSelect p choice =>
      match LANG_OPTIONS !! choice with
      | Some l => withPanel a p (step (panelOf a p) (LangChange l))
      | None => a
      end
  | SearchInput p now text =>
      withPanel a p (step (panelOf a p) (InputChange now text))
  | Timeout p => withPanel a p (step (panelOf a p) TimerFire)
  | Arrival p i o => withPanel a p (step (panelOf a p) (FetchSettle i o))
  end.

(** [App] after mounting. *)
Definition App (env : option string) : AppState :=
  {| drugPanel := mount (DEFAULT_ENDPOINT env) (drug PREDICATES);
     adePanel := mount (DEFAULT_ENDPOINT env) (ade PREDICATES) |}.

Definition appRun (a : AppState) (evs : list AppEvent) : AppState :=
  foldl appStep a evs.

(** What a panel displays, top to bottom: the hint, the line that says
    searching, the error, the info message, and the table of results
    under its caption. *)
Inductive Shown :=
  | Hint (text : string)
  | Searching
  | ErrorText (text : string)
  | InfoText (text : string)
  | Table (caption : string) (rows : list ResultRow).

(** [x && <p>{x}</p>] for [x] a string or null: nothing for null and
    for the empty string. *)
Definition whenText (x : option string) (shown : string -> Shown)
  : list Shown :=
  match x with
  | Some t => if String.eqb t EmptyString then [] else [shown t]
  | None => []
  end.

Definition drugHint (drugQuery : string) : option string :=
  if String.length (trim drugQuery) <? 2
  then Some "Type at least 2 characters to search." else None.

Definition adeHint (adeQuery : string) : option string :=
  if String.length (trim adeQuery) <? 2
  then Some "Type at least 2 characters to search ADEs." else None.

Definition hintOf (p : Panel) (text : string) : option string :=
  match p with
  | DrugPanel => drugHint text
  | AdePanel => adeHint text
  end.

(** [{row.label}] as a child of a table cell: a string or a number is
    shown, a boolean shows nothing, an array is rendered element by
    element, and an object makes the render throw. *)
Fixpoint renderable (v : json) : bool :=
  match v with
  | JObj _ => false
  | JArr items => forallb renderable items
  | _ => true
  end.

(** The part of a panel below the hint; [None] when rendering a row
    throws. *)
Definition outcomeView (search : SearchState) : option (list Shown) :=
  if forallb (fun row => renderable (label row)) (results search) then
    Some ((if loading search then [Searching] else [])
          ++ whenText (error search) ErrorText
          ++ whenText (info search) InfoText
          ++ (if 0 <? length (results search)
              then [Table (stringOfNat (length (results search)) +:+ " hit(s)")
                      (results search)]
              else []))
  else None.

Definition panelView (a : AppState) (p : Panel) : option (list Shown) :=
  below ← outcomeView (s_state (panelOf a p));
  Some (whenText (hintOf p (s_query (panelOf a p))) Hint ++ below).

(** One render of [App]: what the drug panel and the adverse event panel
    display, or [None] when the render throws. *)
Definition renderApp (a : AppState) : option (list Shown * list Shown) :=
  drugShown ← panelView a DrugPanel;
  adeShown ← panelView a AdePanel;
  Some (drugShown, adeShown).

(** What the page displays after the events [evs]. There is no error
    boundary: when a render throws, [App] is unmounted for good and the
    page stays blank ([None]), whatever happens afterwards. *)
Fixpoint screen (a : AppState) (evs : list AppEvent)
  : option (list Shown * list Shown) :=
  match renderApp a with
  | None => None
  | Some shown =>
      match evs with
      | [] => Some shown
      | ev :: evs' => screen (appStep a ev) evs'
      end
  end.

(** What one panel displays on a page. *)
Definition shownOf (page : list Shown * list Shown) (p : Panel) : list Shown :=
  match p with
  | DrugPanel => page.1
  | AdePanel => page.2
  end.

(** ** Vocabulary of the statements *)

(** The definitions from here to the end of this part are not code of the
    program: they are the notions in which the properties are stated,
    and sample data. *)

(** *** The query text *)

(** The template with its three slots filled by the given texts: the
    result of [buildQuery] as the specification describes it. *)
Definition filledTemplate (search predicate lang : string) : string :=
  "PREFIX rdfs: <http://www.w3.org/2000/01/rdf-schema#>" +:+ nl +:+
  "PREFIX skos: <http://www.w3.org/2004/02/skos/core#>" +:+ nl +:+
  nl +:+
  "SELECT ?e (SUBSTR(STR(?label), 1, 150) AS ?shortLabel) WHERE {" +:+ nl +:+
  "  ?e <http://www.ontotext.com/plugins/autocomplete#query> "
    +:+ dq +:+ search +:+ dq +:+ " ." +:+ nl +:+
  "  ?e " +:+ predicate +:+ " ?label ." +:+ nl +:+
  "  FILTER(lang(?label) = " +:+ dq +:+ lang +:+ dq +:+ ")" +:+ nl +:+
  "} LIMIT 10".

(** The fixed text of the template around its three slots. *)
Definition templateHead : string :=
  "PREFIX rdfs: <http://www.w3.org/2000/01/rdf-schema#>" +:+ nl +:+
  "PREFIX skos: <http://www.w3.org/2004/02/skos/core#>" +:+ nl +:+
  nl +:+
  "SELECT ?e (SUBSTR(STR(?label), 1, 150) AS ?shortLabel) WHERE {" +:+ nl +:+
  "  ?e <http://www.ontotext.com/plugins/autocomplete#query> " +:+ dq.

Definition templateMid1 : string := dq +:+ " ." +:+ nl +:+ "  ?e ".

Definition templateMid2 : string :=
  " ?label ." +:+ nl +:+ "  FILTER(lang(?label) = " +:+ dq.

Definition templateTail : string := dq +:+ ")" +:+ nl +:+ "} LIMIT 10".

(** How the round-trip property reads the body of a quoted literal back
    (this is the description given with the property, not code of the
    program): a backslash followed by a double quote or by a backslash
    stands for that character; an unescaped double quote would end the
    literal, and no other use of a backslash is described. *)
Fixpoint unescapeLiteral (s : string) : option string :=
  match s with
  | EmptyString => Some EmptyString
  | String c r =>
      if Ascii.eqb c backslash then
        match r with
        | String d r' =>
            if Ascii.eqb d dquote || Ascii.eqb d backslash then
              option_map (String d) (unescapeLiteral r')
            else None
        | EmptyString => None
        end
      else if Ascii.eqb c dquote then None
      else option_map (String c) (unescapeLiteral r)
  end.

(** [contains p s]: the text [p] occurs in [s]. *)
Definition contains (p s : string) : bool :=
  match splitFirst p s with Some _ => true | None => false end.

(** [hasChar c s]: the character [c] occurs in [s]. *)
Fixpoint hasChar (c : ascii) (s : string) : bool :=
  match s with
  | EmptyString => false
  | String d r => Ascii.eqb d c || hasChar c r
  end.

(** [mismatch p x]: [p] and [x] differ at a position that both have, so
    [p] is not a prefix of [x] followed by anything. *)
Fixpoint mismatch (p x : string) : bool :=
  match p, x with
  | String a p', String b x' => if Ascii.eqb a b then mismatch p' x' else true
  | _, _ => false
  end.

(** [clearOf p x]: no occurrence of [p] can start inside [x], whatever
    follows [x]. *)
Fixpoint clearOf (p x : string) : bool :=
  match x with
  | EmptyString => true
  | String _ x' => mismatch p x && clearOf p x'
  end.

(** A split of [z] seen as a split of [x +:+ z]. *)
Definition prepend (x : string) (r : option (string * string))
  : option (string * string) :=
  match r with
  | Some (before, after) => Some (x +:+ before, after)
  | None => None
  end.

(** [noneIn r p]: no character of [r] occurs in [p]. *)
Fixpoint noneIn (r p : string) : bool :=
  match r with
  | EmptyString => true
  | String ch r' => negb (hasChar ch p) && noneIn r' p
  end.

(** The language code, after trim and lower-casing, is in the allowed
    set. *)
Definition langAllowed (lang : LangArg) : Prop :=
  normalizeLang lang = "en" \/ normalizeLang lang = "nl".

(** The predicate is one of the two recognized identifiers. *)
Definition predicateRecognized (predicate : string) : Prop :=
  predicate = "rdfs:label" \/ predicate = "skos:prefLabel".

(** The messages of the two errors of [buildQuery]. *)
Definition languageMessage (lang : LangArg) : string :=
  "Unsupported language: " +:+ langToString lang +:+ ". Expected en or nl.".

Definition predicateMessage (predicate : string) : string :=
  "Unsupported predicate: " +:+ predicate +:+ ".".

(** *** Responses and rows *)

(** The message of the error that [fetchSparql] throws on a response
    that is not ok. *)
Definition failureMessage (response : Response) (text : string) : string :=
  "Query failed (" +:+ stringOfNat (status response) +:+ " "
    +:+ statusText response +:+ "): "
    +:+ (if String.eqb text EmptyString then "No response body." else text).

(** [result?.e?.value] and [result?.shortLabel?.value] *)
Definition entityValue (result : json) : option json :=
  optChain (optChain (Some result) "e") "value".

Definition labelValue (result : json) : option json :=
  optChain (optChain (Some result) "shortLabel") "value".

(** A binding row of the SPARQL results format: the value of the entity,
    when there is one, is a string. *)
Definition entityIsText (result : json) : Prop :=
  forall v, entityValue result = Some v -> v = JNull \/ exists u, v = JStr u.

(** *** Outcomes and requests *)

(** The five outcomes a panel can show. While a request is in flight the
    rows of the previous outcome stay in the state. *)
Inductive Shape : SearchState -> Prop :=
  | ShapeIdle :
      Shape {| loading := false; error := None; info := None; results := [] |}
  | ShapeLoading rows :
      Shape {| loading := true; error := None; info := None; results := rows |}
  | ShapeError msg :
      Shape {| loading := false; error := Some msg; info := None; results := [] |}
  | ShapeInfo msg :
      Shape {| loading := false; error := None; info := Some msg; results := [] |}
  | ShapeResults rows :
      rows <> [] ->
      Shape {| loading := false; error := None; info := None; results := rows |}.

(** The reading of Loading as a variant of its own: nothing else is
    present while the state shows loading. *)
Definition LoadingAlone (st : SearchState) : Prop :=
  loading st = true -> error st = None /\ info st = None /\ results st = [].

(** Every request of the list has been aborted. *)
Definition AllAborted (rqs : list Request) : Prop :=
  forall i r, rqs !! i = Some r -> rq_aborted r = true.

(** Every request but the one the current effect controls has been
    aborted; the controlled one is the latest and is not aborted. *)
Definition RequestsInv (s : Stream) : Prop :=
  (forall i r, s_requests s !! i = Some r -> s_controller s <> Some i ->
               rq_aborted r = true)
  /\ (forall i, s_controller s = Some i ->
        S i = length (s_requests s)
        /\ exists r, s_requests s !! i = Some r /\ rq_aborted r = false).

(** While the debounced text is too short, the outcome is cleared and no
    request is controlled. *)
Definition IdleInv (s : Stream) : Prop :=
  String.length (trim (s_debounced s)) < 2 ->
  s_state s = clearUpdate initialState /\ s_controller s = None.

(** *** Bursts of typing *)

(** A burst of typing that starts at time [t0]: every further change
    comes less than [delayMs] after the one before it. *)
Fixpoint withinWindow (t0 : nat) (rest : list (nat * string)) : Prop :=
  match rest with
  | [] => True
  | (t, _) :: rest' => t0 <= t /\ t < t0 + delayMs /\ withinWindow t rest'
  end.

(** Every input differs from the text before it. *)
Fixpoint changes (current : string) (inputs : list (nat * string)) : Prop :=
  match inputs with
  | [] => True
  | (_, v) :: rest => v <> current /\ changes v rest
  end.

(** The last input of the burst that starts with [first]. *)
Fixpoint lastInput (first : nat * string) (rest : list (nat * string))
  : nat * string :=
  match rest with
  | [] => first
  | next :: rest' => lastInput next rest'
  end.

(** The calls of [fetch] that a debounced text gives rise to: none when
    the text is the one already debounced, when its trimmed length is
    below 2 or when [buildQuery] throws; otherwise one, for the trimmed
    text. *)
Definition expectedCalls (s : Stream) (text : string) : list Request :=
  if String.eqb text (s_debounced s) then []
  else if String.length (trim text) <? 2 then []
  else
    match buildQuery (trim text) (s_predicate s) (LangStr (s_lang s)) with
    | Return sparql =>
        [{| rq_endpoint := s_endpoint s; rq_body := sparql;
            rq_aborted := false; rq_settled := false |}]
    | Throw _ => []
    end.

(** The reading of debouncing as one call per burst, whatever the
    burst: exactly one call of [fetch] has been issued at time [T]. *)
Definition OneCallPerBurst (s : Stream) (burst : list (nat * string))
    (T : nat) : Prop :=
  exists r, issuedSince s (advance T (typeAll s burst)) = [r].

(** *** Further notions *)

(** The text of the entity value of a binding row, empty when there is
    none. *)
Definition uriText (result : json) : string :=
  match uriOf result with
  | JStr u => u
  | _ => EmptyString
  end.

(** The row that a binding of the results format is mapped to. *)
Definition rowOfBinding (result : json) : ResultRow :=
  {| id := idOf (uriText result); label := labelOf result |}.

(** The pending timeout holds the text of the search box, and without a
    pending timeout the debounced text is the text of the search box. *)
Definition DebounceInv (s : Stream) : Prop :=
  (forall due v, s_timer s = Some (due, v) -> v = s_query s)
  /\ (s_timer s = None -> s_debounced s = s_query s).

(** The controlled request was sent to the current endpoint, for the
    current debounced text, predicate and language. *)
Definition FreshInv (s : Stream) : Prop :=
  forall k r, s_controller s = Some k -> s_requests s !! k = Some r ->
    rq_endpoint r = s_endpoint s
    /\ 2 <= String.length (trim (s_debounced s))
    /\ buildQuery (trim (s_debounced s)) (s_predicate s) (LangStr (s_lang s))
       = Return (rq_body r).

(** The state shows loading only while a request is controlled, and it
    does show loading while the controlled request is outstanding. *)
Definition LoadingInv (s : Stream) : Prop :=
  (loading (s_state s) = true -> exists k, s_controller s = Some k)
  /\ (forall k r, s_controller s = Some k -> s_requests s !! k = Some r ->
        rq_settled r = false -> loading (s_state s) = true).

(** Every request was built by [buildQuery] from a trimmed text of at
    least two characters. *)
Definition BodiesInv (s : Stream) : Prop :=
  forall i r, s_requests s !! i = Some r ->
    exists text l,
      2 <= String.length (trim text)
      /\ buildQuery (trim text) (s_predicate s) (LangStr l)
         = Return (rq_body r).

(** The language of every panel is one of the options of its select. *)
Definition AppInv (a : AppState) : Prop :=
  forall p,
    s_predicate (panelOf a p) = predicateOf p
    /\ In (s_lang (panelOf a p)) LANG_OPTIONS
    /\ s_endpoint (panelOf a p) = s_endpoint (drugPanel a).

(** *** Sample data *)

(** A binding row. *)
Definition sampleRow : json :=
  JObj [("e", JObj [("type", JStr "uri");
                    ("value", JStr "http://x.org/drug/12345")]);
        ("shortLabel", JObj [("type", JStr "literal");
                             ("value", JStr "Ibuprofen")])].

(** A sample response: one binding. *)
Definition sampleResponse : Response :=
  {| status := 200; statusText := "OK"; bodyText := Return EmptyString;
     bodyJson := Return (JObj [("results", JObj [("bindings",
        JArr [JObj [("e", JObj [("value", JStr "http://x.org/drug/12345")]);
                    ("shortLabel", JObj [("value", JStr "Ibuprofen")])]])])]) |}.

(** A response without bindings. *)
Definition emptyResponse : Response :=
  {| status := 200; statusText := "OK"; bodyText := Return EmptyString;
     bodyJson := Return (JObj [("head", JObj [("vars", JArr [JStr "e"; JStr "shortLabel"])]);
                               ("results", JObj [("bindings", JArr [])])]) |}.

(** A response that is not ok; its body is not JSON. *)
Definition serverError : Response :=
  {| status := 500; statusText := "Internal Server Error";
     bodyText := Return "Internal error";
     bodyJson := Throw (mkJsError "SyntaxError" "Unexpected token I in JSON at position 0") |}.

(** A sample session: a search that returns a row, then more typing. *)
Definition sampleSession : list Event :=
  [InputChange 0 "ibu"; TimerFire; FetchSettle 0 (FetchResponse sampleResponse);
   InputChange 1000 "ibup"; TimerFire].

(** A sample session with two requests: the second is issued while the
    first is still outstanding. *)
Definition overlappingSession : list Event :=
  [InputChange 0 "ibu"; TimerFire; InputChange 300 "ibup"; TimerFire].

(** A panel with one outstanding request. *)
Definition searchingIbu : Stream :=
  run (mount "/graphdb/repositories/dakikg" "rdfs:label")
      [InputChange 0 "ibu"; TimerFire].

(** A panel at rest: mounted, and the first timeout has run. *)
Definition restingPanel : Stream :=
  advance delayMs (mount "/graphdb/repositories/dakikg" "rdfs:label").

(* ================================================================== *)
(** * Part II. Properties *)
(* ================================================================== *)

Example trim_example :
  trim (String (ascii_of_nat 9) "  EN " +:+ nl) = "EN".
Proof. reflexivity. Qed.

Example trim_inner_space : trim " renal pain  " = "renal pain".
Proof. reflexivity. Qed.

Example toLowerCase_example : toLowerCase "En-NL" = "en-nl".
Proof. reflexivity. Qed.

Example replace_first_only : replace "ab" "X" "abcab" = "Xcab".
Proof. reflexivity. Qed.

Example replace_expands_dollar :
  replace "b" "[$&|$`|$'|$$|$1]" "abc" = "a[b|a|c|$|$1]c".
Proof. reflexivity. Qed.

Example split_example : split slash "http://x.org/a" = ["http:"; EmptyString; "x.org"; "a"].
Proof. reflexivity. Qed.

Example idOf_example :
  idOf "http://x.org/drug/12345" = "12345" /\ idOf "http://x.org/" = "http://x.org/".
Proof. split; reflexivity. Qed.

Example SPARQL_TEMPLATE_slots : SPARQL_TEMPLATE = filledTemplate "q0" "qPred" "qLang".
Proof. reflexivity. Qed.

Example buildQuery_ibuprofen :
  buildQuery "ibuprofen" "rdfs:label" (LangStr "en")
  = Return (filledTemplate "ibuprofen" "rdfs:label" "en").
Proof. vm_compute. reflexivity. Qed.

Example escape_ex :
  escapeSparqlStringLiteral (String backslash (String dquote "a"))
  = String backslash (String backslash (String backslash (String dquote "a"))).
Proof. vm_compute. reflexivity. Qed.

Example decodeResponse_sample :
  decodeResponse sampleResponse
  = Return (DataRows [{| id := "12345"; label := JStr "Ibuprofen" |}]).
Proof. vm_compute. reflexivity. Qed.

(** ** Escaping *)

Lemma substitute_backslashes m b a :
  getSubstitution m b a (String backslash (str1 backslash))
  = String backslash (str1 backslash).
Proof. reflexivity. Qed.

Lemma substitute_escaped_quote m b a :
  getSubstitution m b a (String backslash dq) = String backslash dq.
Proof. reflexivity. Qed.

Lemma append_cons c s t : String c s +:+ t = String c (s +:+ t).
Proof. reflexivity. Qed.

Lemma append_empty t : EmptyString +:+ t = t.
Proof. reflexivity. Qed.

Lemma append_str1 c t : str1 c +:+ t = String c t.
Proof. reflexivity. Qed.

Lemma replaceAllFrom_cons c repl before d r :
  replaceAllFrom c repl before (String d r)
  = if Ascii.eqb d c
    then getSubstitution (str1 c) before r repl
           +:+ replaceAllFrom c repl (before +:+ str1 d) r
    else String d (replaceAllFrom c repl (before +:+ str1 d) r).
Proof. reflexivity. Qed.

Lemma parse_escaped_from s : forall b b',
  unescapeLiteral
    (replaceAllFrom dquote (String backslash dq) b'
       (replaceAllFrom backslash (String backslash (str1 backslash)) b s))
  = Some s.
Proof.
  induction s as [|c s IH]; intros b b'; [reflexivity|].
  rewrite replaceAllFrom_cons.
  destruct (Ascii.eqb c backslash) eqn:Hbs.
  - apply Ascii.eqb_eq in Hbs; subst c.
    rewrite substitute_backslashes.
    rewrite append_cons, append_str1.
    rewrite replaceAllFrom_cons.
    change (Ascii.eqb backslash dquote) with false; cbv iota.
    rewrite replaceAllFrom_cons.
    change (Ascii.eqb backslash dquote) with false; cbv iota.
    cbn [unescapeLiteral].
    change (Ascii.eqb backslash backslash) with true.
    change (Ascii.eqb backslash dquote) with false.
    cbn [orb]. cbv iota.
    now rewrite IH.
  - rewrite replaceAllFrom_cons.
    destruct (Ascii.eqb c dquote) eqn:Hdq.
    + apply Ascii.eqb_eq in Hdq; subst c.
      rewrite substitute_escaped_quote.
      unfold dq. rewrite append_cons, append_str1.
      cbn [unescapeLiteral].
      change (Ascii.eqb backslash backslash) with true.
      change (Ascii.eqb dquote dquote) with true.
      cbn [orb]. cbv iota.
      now rewrite IH.
    + cbn [unescapeLiteral]. rewrite Hbs, Hdq. now rewrite IH.
Qed.

(** C4. Escaping round trip: for every text, the escaped text (backslashes
    first, then double quotes), read back as the body of a quoted literal
    where backslash-quote stands for a quote and backslash-backslash for a
    backslash, is the original text. *)
Theorem escape_roundtrip (rawQueryText : string) :
  unescapeLiteral (escapeSparqlStringLiteral rawQueryText) = Some rawQueryText.
Proof. apply parse_escaped_from. Qed.

(** ** Occurrences of a text in another *)

Lemma splitFirst_unfold p s :
  splitFirst p s =
  match dropPrefix p s with
  | Some rest => Some (EmptyString, rest)
  | None =>
      match s with
      | EmptyString => None
      | String c r =>
          match splitFirst p r with
          | Some (before, after) => Some (String c before, after)
          | None => None
          end
      end
  end.
Proof. destruct s; reflexivity. Qed.

Lemma dropPrefix_app p y : dropPrefix p (p +:+ y) = Some y.
Proof.
  induction p as [|a p IH]; [reflexivity|].
  rewrite append_cons. cbn [dropPrefix]. now rewrite Ascii.eqb_refl.
Qed.

Lemma contains_cons p c s : contains p s = true -> contains p (String c s) = true.
Proof.
  unfold contains. rewrite (splitFirst_unfold p (String c s)).
  destruct (dropPrefix p (String c s)); [reflexivity|].
  destruct (splitFirst p s) as [[b a]|]; [reflexivity|discriminate].
Qed.

Lemma contains_app_l p x s : contains p s = true -> contains p (x +:+ s) = true.
Proof.
  intros H. induction x as [|c x IH]; [exact H|].
  rewrite append_cons. now apply contains_cons.
Qed.

Lemma contains_prefix p y : contains p (p +:+ y) = true.
Proof.
  unfold contains. rewrite splitFirst_unfold. now rewrite dropPrefix_app.
Qed.

Lemma contains_middle p x y : contains p (x +:+ p +:+ y) = true.
Proof. apply contains_app_l, contains_prefix. Qed.

Lemma contains_end p x : contains p (x +:+ p) = true.
Proof.
  apply contains_app_l. unfold contains. rewrite splitFirst_unfold.
  replace (dropPrefix p p) with (Some EmptyString); [reflexivity|].
  induction p as [|a p IH]; [reflexivity|].
  cbn [dropPrefix]. now rewrite Ascii.eqb_refl.
Qed.

(** ** Validation *)

Lemma includes_LANG_OPTIONS lang :
  includes LANG_OPTIONS (normalizeLang lang) = true <-> langAllowed lang.
Proof.
  unfold includes, LANG_OPTIONS, langAllowed. cbn [existsb].
  rewrite !orb_true_iff, !String.eqb_eq. intuition discriminate.
Qed.

Lemma includes_PREDICATES predicate :
  includes (Object_values PREDICATES) predicate = true
  <-> predicateRecognized predicate.
Proof.
  unfold includes, Object_values, PREDICATES, predicateRecognized.
  cbn [existsb drug ade].
  rewrite !orb_true_iff, !String.eqb_eq. intuition discriminate.
Qed.

Lemma buildQuery_bad_lang query predicate lang :
  ~ langAllowed lang ->
  buildQuery query predicate lang = Throw (Error (languageMessage lang)).
Proof.
  intros H. unfold buildQuery.
  destruct (includes LANG_OPTIONS (normalizeLang lang)) eqn:E; [|reflexivity].
  now apply includes_LANG_OPTIONS in E.
Qed.

Lemma buildQuery_bad_predicate query predicate lang :
  langAllowed lang -> ~ predicateRecognized predicate ->
  buildQuery query predicate lang = Throw (Error (predicateMessage predicate)).
Proof.
  intros Hl Hp. unfold buildQuery.
  apply includes_LANG_OPTIONS in Hl. rewrite Hl. cbn [negb].
  destruct (includes (Object_values PREDICATES) predicate) eqn:E; [|reflexivity].
  now apply includes_PREDICATES in E.
Qed.

Lemma buildQuery_valid query predicate lang :
  langAllowed lang -> predicateRecognized predicate ->
  buildQuery query predicate lang =
  Return (replace "qLang" (normalizeLang lang)
            (replace "qPred" predicate
               (replace "q0" (escapeSparqlStringLiteral query) SPARQL_TEMPLATE))).
Proof.
  intros Hl Hp. unfold buildQuery.
  apply includes_LANG_OPTIONS in Hl. apply includes_PREDICATES in Hp.
  now rewrite Hl, Hp.
Qed.

(** C5. [buildQuery] fails exactly when the language code, after trim and
    lower-casing, is not en or nl, or the predicate is not rdfs:label or
    skos:prefLabel. For a rejected language the message is the fixed text
    around the value as given, and it names en and nl; for a rejected
    predicate (the language being accepted) the message contains the
    predicate; for valid inputs a query text is returned. *)
Theorem buildQuery_fails_iff (query predicate : string) (lang : LangArg) :
  ((exists err, buildQuery query predicate lang = Throw err)
     <-> (~ langAllowed lang \/ ~ predicateRecognized predicate))
  /\ (~ langAllowed lang ->
      buildQuery query predicate lang = Throw (Error (languageMessage lang))
      /\ contains (langToString lang) (languageMessage lang) = true
      /\ contains "en" (languageMessage lang) = true
      /\ contains "nl" (languageMessage lang) = true)
  /\ (langAllowed lang -> ~ predicateRecognized predicate ->
      buildQuery query predicate lang = Throw (Error (predicateMessage predicate))
      /\ contains predicate (predicateMessage predicate) = true)
  /\ (langAllowed lang -> predicateRecognized predicate ->
      exists sparql, buildQuery query predicate lang = Return sparql).
Proof.
  split; [|split; [|split]].
  - split.
    + intros [err Herr].
      destruct (includes LANG_OPTIONS (normalizeLang lang)) eqn:El.
      * destruct (includes (Object_values PREDICATES) predicate) eqn:Ep.
        -- apply includes_LANG_OPTIONS in El. apply includes_PREDICATES in Ep.
           rewrite (buildQuery_valid _ _ _ El Ep) in Herr. discriminate.
        -- right. intros Hp. apply includes_PREDICATES in Hp. congruence.
      * left. intros Hl. apply includes_LANG_OPTIONS in Hl. congruence.
    + destruct (includes LANG_OPTIONS (normalizeLang lang)) eqn:El.
      * intros [Hl|Hp].
        -- apply includes_LANG_OPTIONS in El. contradiction.
        -- apply includes_LANG_OPTIONS in El. eexists.
           now apply buildQuery_bad_predicate.
      * intros _. eexists. apply buildQuery_bad_lang.
        intros Hl. apply includes_LANG_OPTIONS in Hl. congruence.
  - intros Hl. split; [now apply buildQuery_bad_lang|].
    unfold languageMessage. split; [apply contains_middle|].
    split.
    + apply contains_app_l, contains_app_l.
      change ". Expected en or nl." with (". Expected " +:+ "en" +:+ " or nl.").
      apply contains_middle.
    + apply contains_app_l, contains_app_l.
      change ". Expected en or nl." with (". Expected en or " +:+ "nl" +:+ ".").
      apply contains_middle.
  - intros Hl Hp. split; [now apply buildQuery_bad_predicate|].
    apply contains_middle.
  - intros Hl Hp. eexists. now apply buildQuery_valid.
Qed.

(** A German language code is rejected with the language message, and an
    unknown predicate with the predicate message. *)
Lemma buildQuery_fails_iff_witness :
  buildQuery "ibu" "rdfs:label" (LangStr "de")
    = Throw (Error "Unsupported language: de. Expected en or nl.")
  /\ buildQuery "ibu" "dc:title" (LangStr " EN ")
    = Throw (Error "Unsupported predicate: dc:title.")
  /\ exists sparql, buildQuery "ibu" "skos:prefLabel" (LangStr "NL") = Return sparql.
Proof.
  split; [|split].
  - apply (proj1 (proj2 (buildQuery_fails_iff "ibu" "rdfs:label" (LangStr "de")))).
    intros [H|H]; vm_compute in H; discriminate.
  - apply (proj1 (proj2 (proj2 (buildQuery_fails_iff "ibu" "dc:title" (LangStr " EN "))))).
    + left; vm_compute; reflexivity.
    + intros [H|H]; discriminate.
  - apply (proj2 (proj2 (proj2 (buildQuery_fails_iff "ibu" "skos:prefLabel" (LangStr "NL"))))).
    + right; vm_compute; reflexivity.
    + right; reflexivity.
Defined.

(** ** The shape of the outcome *)

Lemma decodeResponse_rows r rows :
  decodeResponse r = Return (DataRows rows) -> rows <> [].
Proof.
  unfold decodeResponse.
  destruct (negb (ok r)).
  - destruct (bodyText r); discriminate.
  - destruct (bodyJson r) as [payload|]; [|discriminate].
    cbn [mbind completion_bind].
    destruct (bindingsOf payload); try discriminate.
    destruct (mapRows items) as [rows'|]; [|discriminate].
    cbn [mbind completion_bind].
    destruct rows' as [|row rows']; [discriminate|].
    cbn. intros [= <-]. discriminate.
Qed.

Lemma Shape_clearUpdate prev : Shape (clearUpdate prev).
Proof. constructor. Qed.

Lemma Shape_loadingUpdate prev : Shape (loadingUpdate prev).
Proof. constructor. Qed.

Lemma Shape_onRejected err prev : Shape prev -> Shape (onRejected err prev).
Proof.
  intros H. unfold onRejected.
  destruct (String.eqb (err_name err) "AbortError"); [exact H|constructor].
Qed.

Lemma Shape_applySettlement o prev :
  Shape prev -> Shape (applySettlement (settleFetch o) prev).
Proof.
  intros H. destruct o as [e|r]; cbn [settleFetch applySettlement].
  - now apply Shape_onRejected.
  - destruct (decodeResponse r) as [[msg|rows]|e] eqn:E; cbn [applySettlement].
    + constructor.
    + constructor. eapply decodeResponse_rows; eauto.
    + now apply Shape_onRejected.
Qed.

Lemma s_state_useSearchResults_cleanup s : s_state (useSearchResults_cleanup s) = s_state s.
Proof. unfold useSearchResults_cleanup. now destruct (s_controller s). Qed.

Lemma Shape_useSearchResults_effect s : Shape (s_state (useSearchResults_effect s)).
Proof.
  unfold useSearchResults_effect, fetchSparql.
  destruct (String.length (trim (s_debounced s)) <? 2); [constructor|].
  destruct (buildQuery _ _ _); cbn [s_state setSearch].
  - constructor.
  - apply Shape_onRejected. constructor.
Qed.

Lemma Shape_step s ev : Shape (s_state s) -> Shape (s_state (step s ev)).
Proof.
  intros H. destruct ev as [now text| |l|e|i o]; cbn [step].
  - now destruct (String.eqb text (s_query s)).
  - destruct (s_timer s) as [[due v]|]; [|exact H].
    destruct (String.eqb v (s_debounced s)); [exact H|apply Shape_useSearchResults_effect].
  - destruct (String.eqb l (s_lang s)); [exact H|apply Shape_useSearchResults_effect].
  - destruct (String.eqb e (s_endpoint s)); [exact H|apply Shape_useSearchResults_effect].
  - destruct (s_requests s !! i) as [r|]; [|exact H].
    destruct (rq_settled r); [exact H|].
    cbn [s_state setSearch].
    destruct (rq_aborted r); [exact H|].
    now apply Shape_applySettlement.
Qed.

Lemma Shape_run evs : forall s, Shape (s_state s) -> Shape (s_state (run s evs)).
Proof.
  induction evs as [|ev evs IH]; intros s H; [exact H|].
  apply IH. now apply Shape_step.
Qed.

Lemma Shape_mount endpoint predicate : Shape (s_state (mount endpoint predicate)).
Proof. constructor. Qed.

Lemma Shape_exclusive st :
  Shape st ->
  (loading st = true -> error st = None /\ info st = None)
  /\ (error st <> None ->
      loading st = false /\ info st = None /\ results st = [])
  /\ (info st <> None ->
      loading st = false /\ error st = None /\ results st = [])
  /\ (results st <> [] -> error st = None /\ info st = None).
Proof.
  intros H. destruct H; cbn; repeat split; congruence.
Qed.

(** C1, as stated, fails: after a search has returned a row, the next
    request shows loading while that row is still in the state. *)
Lemma loading_keeps_rows :
  ~ LoadingAlone
      (s_state (run (mount "/graphdb/repositories/dakikg" "rdfs:label")
                    sampleSession)).
Proof.
  intros H.
  assert (Hl : loading (s_state (run (mount "/graphdb/repositories/dakikg"
                                       "rdfs:label") sampleSession)) = true)
    by (vm_compute; reflexivity).
  destruct (H Hl) as (_ & _ & Hr). vm_compute in Hr. discriminate.
Qed.

(** C1, amended. In every reachable state of a panel the outcome is one
    of Idle, Loading, Error, Info and Results, where Loading carries no
    error and no info message but keeps the rows of the previous outcome;
    an error or an info message excludes everything else, and rows exclude
    error and info. A fulfilled response, a rejection other than an abort
    and the clearing on short input replace the state without reading the
    previous one; the update that starts a request keeps the previous
    rows. *)
Theorem outcome_shape (endpoint predicate : string) (evs : list Event) :
  let st := s_state (run (mount endpoint predicate) evs) in
  Shape st
  /\ (loading st = true -> error st = None /\ info st = None)
  /\ (error st <> None ->
      loading st = false /\ info st = None /\ results st = [])
  /\ (info st <> None ->
      loading st = false /\ error st = None /\ results st = [])
  /\ (results st <> [] -> error st = None /\ info st = None)
  /\ (forall data prev prev', onFulfilled data prev = onFulfilled data prev')
  /\ (forall err prev prev', err_name err <> "AbortError" ->
        onRejected err prev = onRejected err prev')
  /\ (forall prev prev', clearUpdate prev = clearUpdate prev')
  /\ (forall prev, loadingUpdate prev =
        {| loading := true; error := None; info := None;
           results := results prev |}).
Proof.
  intros st.
  assert (H : Shape st) by (apply Shape_run, Shape_mount).
  split; [exact H|].
  split; [now apply Shape_exclusive|].
  split; [now apply Shape_exclusive|].
  split; [now apply Shape_exclusive|].
  split; [now apply Shape_exclusive|].
  split; [intros data prev prev'; now destruct data|].
  split; [|split; [intros; reflexivity|intros; reflexivity]].
  intros err prev prev' Hn. unfold onRejected.
  apply String.eqb_neq in Hn. now rewrite Hn.
Qed.

(** The sample session ends in Loading with the row of the first search. *)
Lemma outcome_shape_witness :
  let st := s_state (run (mount "/graphdb/repositories/dakikg" "rdfs:label")
                         sampleSession) in
  loading st = true /\ error st = None /\ info st = None
  /\ results st = [{| id := "12345"; label := JStr "Ibuprofen" |}].
Proof.
  intros st.
  destruct (outcome_shape "/graphdb/repositories/dakikg" "rdfs:label"
              sampleSession) as (_ & Hload & _).
  assert (Hl : loading st = true) by (vm_compute; reflexivity).
  destruct (Hload Hl) as [He Hi].
  split; [exact Hl|]. split; [exact He|]. split; [exact Hi|].
  vm_compute. reflexivity.
Defined.

(** ** Requests and their cancellation *)

Lemma useSearchResults_cleanup_aborts s :
  RequestsInv s ->
  AllAborted (s_requests (useSearchResults_cleanup s))
  /\ length (s_requests (useSearchResults_cleanup s)) = length (s_requests s)
  /\ s_debounced (useSearchResults_cleanup s) = s_debounced s.
Proof.
  intros [Hothers Hcur]. unfold useSearchResults_cleanup.
  destruct (s_controller s) as [c|] eqn:Ec; cbn [s_requests s_debounced setSearch].
  - split; [|split; [apply length_alter|reflexivity]].
    intros i r Hi. destruct (decide (c = i)) as [->|Hne].
    + rewrite list_lookup_alter_eq in Hi.
      destruct (s_requests s !! i); [|discriminate].
      injection Hi as <-. reflexivity.
    + rewrite list_lookup_alter_ne in Hi by exact Hne.
      apply (Hothers i r Hi). congruence.
  - split; [|split; reflexivity].
    intros i r Hi. apply (Hothers i r Hi). discriminate.
Qed.

Lemma useSearchResults_effect_inv s :
  AllAborted (s_requests s) ->
  RequestsInv (useSearchResults_effect s) /\ IdleInv (useSearchResults_effect s).
Proof.
  intros Hall. unfold useSearchResults_effect, fetchSparql.
  destruct (String.length (trim (s_debounced s)) <? 2) eqn:Elen.
  - split.
    + split; cbn [s_requests s_controller setSearch].
      * intros i r Hi _. now apply (Hall i r).
      * discriminate.
    + intros _. split; reflexivity.
  - apply Nat.ltb_ge in Elen.
    destruct (buildQuery _ _ _) as [sparql|err].
    + split.
      * split; cbn [s_requests s_controller setSearch].
        -- intros i r Hi Hne.
           apply lookup_app_Some in Hi as [Hi|[Hge Hi]]; [now apply (Hall i r)|].
           apply list_lookup_singleton_Some in Hi as [Hi _].
           exfalso. apply Hne. f_equal. lia.
        -- intros i [= <-]. split; [rewrite length_app; cbn; lia|].
           eexists. split.
           ++ rewrite lookup_app_r by lia. rewrite Nat.sub_diag. reflexivity.
           ++ reflexivity.
      * intros Hshort. cbn [s_debounced setSearch] in Hshort. lia.
    + split.
      * split; cbn [s_requests s_controller setSearch].
        -- intros i r Hi _. now apply (Hall i r).
        -- discriminate.
      * intros Hshort. cbn [s_debounced setSearch] in Hshort. lia.
Qed.

Lemma useSearchResults_inv s :
  RequestsInv s -> RequestsInv (useSearchResults s) /\ IdleInv (useSearchResults s).
Proof.
  intros H. apply useSearchResults_effect_inv. now apply useSearchResults_cleanup_aborts.
Qed.

Lemma onRejected_abort err st :
  err_name err = "AbortError" -> onRejected err st = st.
Proof. intros H. unfold onRejected. now rewrite H. Qed.

Lemma step_inv s ev :
  RequestsInv s -> IdleInv s -> RequestsInv (step s ev) /\ IdleInv (step s ev).
Proof.
  intros Hr Hi. destruct ev as [now text| |l|e|i o]; cbn [step].
  - destruct (String.eqb text (s_query s)); split; assumption.
  - destruct (s_timer s) as [[due v]|]; [|split; assumption].
    destruct (String.eqb v (s_debounced s)); [split; assumption|].
    now apply useSearchResults_inv.
  - destruct (String.eqb l (s_lang s)); [split; assumption|].
    now apply useSearchResults_inv.
  - destruct (String.eqb e (s_endpoint s)); [split; assumption|].
    now apply useSearchResults_inv.
  - destruct (s_requests s !! i) as [r|] eqn:Ei; [|split; assumption].
    destruct (rq_settled r) eqn:Es; [split; assumption|].
    destruct Hr as [Hothers Hcur].
    assert (Hlt : i < length (s_requests s)) by (eapply lookup_lt_Some; eauto).
    split; [split|]; cbn [s_requests s_controller s_state s_debounced setSearch].
    + intros j r' Hj Hne.
      destruct (decide (i = j)) as [->|Hij].
      * rewrite list_lookup_insert_eq in Hj by exact Hlt.
        injection Hj as <-. cbn. now apply (Hothers j r).
      * rewrite list_lookup_insert_ne in Hj by exact Hij.
        now apply (Hothers j r').
    + intros c Hc. destruct (Hcur c Hc) as [Hlen (r' & Hr' & Ha)].
      rewrite length_insert. split; [exact Hlen|].
      destruct (decide (i = c)) as [->|Hic].
      * rewrite list_lookup_insert_eq by exact Hlt.
        eexists; split; [reflexivity|]. cbn. congruence.
      * rewrite list_lookup_insert_ne by exact Hic. eauto.
    + intros Hshort. destruct (Hi Hshort) as [Hst Hc]. split; [|exact Hc].
      rewrite (Hothers i r Ei) by congruence. exact Hst.
Qed.

Lemma mount_inv endpoint predicate :
  RequestsInv (mount endpoint predicate) /\ IdleInv (mount endpoint predicate).
Proof.
  split; [split|].
  - intros i r Hi. discriminate.
  - discriminate.
  - intros _. split; reflexivity.
Qed.

Lemma run_inv evs : forall s,
  RequestsInv s -> IdleInv s -> RequestsInv (run s evs) /\ IdleInv (run s evs).
Proof.
  induction evs as [|ev evs IH]; intros s Hr Hi; [split; assumption|].
  destruct (step_inv s ev Hr Hi) as [Hr' Hi']. now apply IH.
Qed.

Lemma reachable_inv endpoint predicate evs :
  RequestsInv (run (mount endpoint predicate) evs)
  /\ IdleInv (run (mount endpoint predicate) evs).
Proof. apply run_inv; apply mount_inv. Qed.

Lemma settle_aborted s i r o :
  s_requests s !! i = Some r -> rq_aborted r = true ->
  s_state (step s (FetchSettle i o)) = s_state s.
Proof.
  intros Hi Ha. cbn [step]. rewrite Hi.
  destruct (rq_settled r); [reflexivity|].
  now rewrite Ha.
Qed.

Lemma settle_current s i r o :
  s_requests s !! i = Some r -> rq_aborted r = false -> rq_settled r = false ->
  s_state (step s (FetchSettle i o))
  = applySettlement (settleFetch o) (s_state s).
Proof.
  intros Hi Ha Hs. cbn [step]. now rewrite Hi, Hs, Ha.
Qed.

(** C3. In every reachable state, the resolution of a request that has a
    later request after it, whatever the network delivers for it, leaves
    the outcome as it is, and so does the resolution of any request other
    than the one the current effect controls; the controlled request is
    the latest one, and its resolution is what sets the outcome; a
    rejection named AbortError is dropped by the catch callback and never
    becomes an error message. *)
Theorem supersession (endpoint predicate : string) (evs : list Event) :
  let s := run (mount endpoint predicate) evs in
  (forall i j o, i < j -> j < length (s_requests s) ->
     s_state (step s (FetchSettle i o)) = s_state s)
  /\ (forall i o, s_controller s <> Some i ->
        s_state (step s (FetchSettle i o)) = s_state s)
  /\ (forall k r o,
        s_controller s = Some k -> s_requests s !! k = Some r ->
        rq_settled r = false ->
        S k = length (s_requests s)
        /\ s_state (step s (FetchSettle k o))
           = applySettlement (settleFetch o) (s_state s))
  /\ (forall err st, err_name err = "AbortError" -> onRejected err st = st).
Proof.
  intros s.
  destruct (reachable_inv endpoint predicate evs) as [[Hothers Hcur] _].
  fold s in Hothers, Hcur.
  assert (Hstale : forall i o, s_controller s <> Some i ->
            s_state (step s (FetchSettle i o)) = s_state s).
  { intros i o Hc. destruct (s_requests s !! i) as [r|] eqn:Ei.
    - apply (settle_aborted s i r o Ei). now apply (Hothers i r Ei).
    - cbn [step]. now rewrite Ei. }
  split; [|split; [exact Hstale|split]].
  - intros i j o Hij Hj. apply Hstale.
    intros Hc. destruct (Hcur i Hc) as [Hlen _]. lia.
  - intros k r o Hc Hk Hs. destruct (Hcur k Hc) as [Hlen (r' & Hr' & Ha)].
    split; [exact Hlen|].
    apply (settle_current s k r o Hk); [congruence|exact Hs].
  - intros err st. apply onRejected_abort.
Qed.

(** With two overlapping requests, a response for the first one changes
    nothing: the panel keeps showing loading for the second. *)
Lemma supersession_witness :
  let s := run (mount "/graphdb/repositories/dakikg" "rdfs:label")
               overlappingSession in
  length (s_requests s) = 2
  /\ s_state (step s (FetchSettle 0 (FetchResponse sampleResponse))) = s_state s
  /\ s_state s = {| loading := true; error := None; info := None; results := [] |}.
Proof.
  intros s.
  assert (Hlen : length (s_requests s) = 2) by (vm_compute; reflexivity).
  split; [exact Hlen|]. split.
  - apply (proj1 (supersession "/graphdb/repositories/dakikg" "rdfs:label"
                    overlappingSession) 0 1 (FetchResponse sampleResponse)).
    + lia.
    + fold s. rewrite Hlen. lia.
  - vm_compute. reflexivity.
Defined.

(** ** Short input *)

Lemma s_debounced_useSearchResults_effect s : s_debounced (useSearchResults_effect s) = s_debounced s.
Proof.
  unfold useSearchResults_effect, fetchSparql.
  destruct (String.length (trim (s_debounced s)) <? 2); [reflexivity|].
  now destruct (buildQuery _ _ _).
Qed.

Lemma s_debounced_useSearchResults s : s_debounced (useSearchResults s) = s_debounced s.
Proof.
  unfold useSearchResults. rewrite s_debounced_useSearchResults_effect.
  unfold useSearchResults_cleanup. now destruct (s_controller s).
Qed.

Lemma length_useSearchResults_cleanup s :
  length (s_requests (useSearchResults_cleanup s)) = length (s_requests s).
Proof.
  unfold useSearchResults_cleanup. destruct (s_controller s); [|reflexivity].
  cbn [s_requests setSearch]. apply length_alter.
Qed.

(** The effect on a short text: cleared outcome, no call of [fetch], and
    nothing left to abort. *)
Lemma useSearchResults_short s :
  String.length (trim (s_debounced s)) < 2 ->
  s_state (useSearchResults s) = clearUpdate initialState
  /\ length (s_requests (useSearchResults s)) = length (s_requests s)
  /\ s_controller (useSearchResults s) = None.
Proof.
  intros Hshort. unfold useSearchResults, useSearchResults_effect.
  assert (Hd : s_debounced (useSearchResults_cleanup s) = s_debounced s)
    by (unfold useSearchResults_cleanup; now destruct (s_controller s)).
  rewrite Hd. apply Nat.ltb_lt in Hshort. rewrite Hshort.
  cbn [s_state s_requests s_controller setSearch].
  split; [reflexivity|]. split; [apply length_useSearchResults_cleanup|reflexivity].
Qed.

Lemma step_short_length s ev :
  String.length (trim (s_debounced (step s ev))) < 2 ->
  length (s_requests (step s ev)) = length (s_requests s).
Proof.
  destruct ev as [now text| |l|e|i o]; cbn [step].
  - now destruct (String.eqb text (s_query s)).
  - destruct (s_timer s) as [[due v]|]; [|reflexivity].
    destruct (String.eqb v (s_debounced s)); [reflexivity|].
    rewrite s_debounced_useSearchResults. intros H.
    now apply useSearchResults_short in H as (_ & H & _).
  - destruct (String.eqb l (s_lang s)); [reflexivity|].
    rewrite s_debounced_useSearchResults. intros H.
    now apply useSearchResults_short in H as (_ & H & _).
  - destruct (String.eqb e (s_endpoint s)); [reflexivity|].
    rewrite s_debounced_useSearchResults. intros H.
    now apply useSearchResults_short in H as (_ & H & _).
  - destruct (s_requests s !! i) as [r|]; [|reflexivity].
    destruct (rq_settled r); [reflexivity|].
    intros _. cbn [s_requests setSearch]. apply length_insert.
Qed.

(** C7. Whenever the text that the controller receives has trimmed
    length 0 or 1 after a step of a reachable panel, the outcome is the
    cleared one (not loading, no error, no info message, no rows) and the
    step has issued no call of [fetch]. *)
Theorem short_input_idle (endpoint predicate : string) (evs : list Event)
    (ev : Event) :
  let s := run (mount endpoint predicate) evs in
  let s' := step s ev in
  String.length (trim (s_debounced s')) < 2 ->
  s_state s' = {| loading := false; error := None; info := None; results := [] |}
  /\ issuedSince s s' = []
  /\ s_controller s' = None.
Proof.
  intros s s' Hshort.
  destruct (reachable_inv endpoint predicate evs) as [Hr Hi].
  destruct (step_inv _ ev Hr Hi) as [_ Hi'].
  destruct (Hi' Hshort) as [Hst Hc].
  split; [exact Hst|]. split; [|exact Hc].
  unfold issuedSince. apply drop_ge.
  subst s s'. now rewrite step_short_length.
Qed.

(** Typing one letter and letting the timer run: cleared outcome and no
    request. *)
Lemma short_input_idle_witness :
  let s := run (mount "/graphdb/repositories/dakikg" "rdfs:label")
               [InputChange 0 "i"] in
  s_state (step s TimerFire)
    = {| loading := false; error := None; info := None; results := [] |}
  /\ issuedSince s (step s TimerFire) = [].
Proof.
  intros s.
  destruct (short_input_idle "/graphdb/repositories/dakikg" "rdfs:label"
              [InputChange 0 "i"] TimerFire) as (H1 & H2 & _).
  - vm_compute. lia.
  - split; assumption.
Defined.

(** From the side of the search box: after a text of trimmed length 0
    or 1 has been typed into a panel at rest and the delay has passed,
    the outcome is the cleared one and no call has been issued. *)
Lemma short_text_clears endpoint predicate evs t v T :
  let s := run (mount endpoint predicate) evs in
  s_timer s = None -> v <> s_query s ->
  String.length (trim v) < 2 -> t + delayMs <= T ->
  let s' := advance T (typeAt s (t, v)) in
  s_state s' = clearUpdate initialState /\ issuedSince s s' = [].
Proof.
  intros s Hn Hne Hshort HT s'.
  destruct (reachable_inv endpoint predicate evs) as [_ Hidle]. fold s in Hidle.
  assert (Hs' : s' = if String.eqb v (s_debounced s)
                     then setInput s v None
                     else useSearchResults (setDebounced (setInput s v None) v)).
  { unfold s', typeAt, advance at 2. cbn [fst snd]. rewrite Hn. cbn [step].
    apply String.eqb_neq in Hne. rewrite Hne.
    unfold advance, useDebounce. cbn [s_timer setInput].
    apply Nat.leb_le in HT. rewrite HT. reflexivity. }
  rewrite Hs'. destruct (String.eqb v (s_debounced s)) eqn:E.
  - apply String.eqb_eq in E. subst v.
    split; [now apply Hidle|]. unfold issuedSince. apply drop_all.
  - destruct (useSearchResults_short (setDebounced (setInput s v None) v) Hshort)
      as (Hst & Hlen & _).
    split; [exact Hst|]. unfold issuedSince. apply drop_ge.
    rewrite Hlen. reflexivity.
Qed.

(** ** Classification of responses *)

(** C8. When a response with a 2xx status arrives for a request that is
    neither aborted nor settled, and its payload has no binding rows, the
    outcome becomes the info message No matches found., with no rows, not
    loading and without error. *)
Theorem empty_result_info (s : Stream) (i : nat) (rq : Request)
    (response : Response) (payload : json) :
  s_requests s !! i = Some rq ->
  rq_aborted rq = false -> rq_settled rq = false ->
  ok response = true ->
  bodyJson response = Return payload ->
  bindingsOf payload = JArr [] ->
  decodeResponse response = Return (DataText "No matches found.")
  /\ s_state (step s (FetchSettle i (FetchResponse response)))
     = {| loading := false; error := None;
          info := Some "No matches found."; results := [] |}.
Proof.
  intros Hi Ha Hs Hok Hjson Hb.
  assert (Hd : decodeResponse response = Return (DataText "No matches found.")).
  { unfold decodeResponse. rewrite Hok, Hjson. cbn [negb mbind completion_bind].
    now rewrite Hb. }
  split; [exact Hd|].
  rewrite (settle_current s i rq _ Hi Ha Hs).
  cbn [settleFetch]. now rewrite Hd.
Qed.

(** A response with an empty bindings array, for the outstanding request
    of a panel that searches for ibu. *)
Lemma empty_result_info_witness :
  s_state (step searchingIbu (FetchSettle 0 (FetchResponse emptyResponse)))
  = {| loading := false; error := None;
       info := Some "No matches found."; results := [] |}.
Proof.
  eapply (empty_result_info searchingIbu 0 _ emptyResponse);
    vm_compute; reflexivity.
Defined.

(** C9. When a response whose status is not 2xx arrives for a request
    that is neither aborted nor settled, the outcome becomes an error
    whose message is Query failed, the status code and status text in
    parentheses, and the body of the response, or No response body. when
    the body is empty; so the message contains the status code, the
    status text and the body. *)
Theorem http_error_message (s : Stream) (i : nat) (rq : Request)
    (response : Response) (text : string) :
  s_requests s !! i = Some rq ->
  rq_aborted rq = false -> rq_settled rq = false ->
  ok response = false ->
  bodyText response = Return text ->
  let message := failureMessage response text in
  s_state (step s (FetchSettle i (FetchResponse response)))
    = {| loading := false; error := Some message; info := None; results := [] |}
  /\ contains (stringOfNat (status response)) message = true
  /\ contains (statusText response) message = true
  /\ contains (if String.eqb text EmptyString then "No response body." else text)
       message = true.
Proof.
  intros Hi Ha Hs Hok Htext message.
  split; [|split; [|split]].
  - rewrite (settle_current s i rq _ Hi Ha Hs).
    cbn [settleFetch]. unfold decodeResponse.
    rewrite Hok, Htext. cbn [negb mbind completion_bind applySettlement].
    reflexivity.
  - unfold message, failureMessage. apply contains_middle.
  - unfold message, failureMessage. do 3 apply contains_app_l.
    apply contains_prefix.
  - unfold message, failureMessage. do 5 apply contains_app_l.
    generalize (if String.eqb text EmptyString then "No response body." else text).
    intros p. apply (contains_end p EmptyString).
Qed.

(** Status 500 with the body Internal error: the message contains 500
    and Internal error. *)
Lemma http_error_message_witness :
  exists message,
    s_state (step searchingIbu (FetchSettle 0 (FetchResponse serverError)))
    = {| loading := false; error := Some message; info := None; results := [] |}
    /\ message = "Query failed (500 Internal Server Error): Internal error"
    /\ contains "500" message = true
    /\ contains "Internal error" message = true.
Proof.
  destruct (http_error_message searchingIbu 0
              {| rq_endpoint := "/graphdb/repositories/dakikg";
                 rq_body := filledTemplate "ibu" "rdfs:label" "en";
                 rq_aborted := false; rq_settled := false |}
              serverError "Internal error")
    as (Hst & Hcode & _ & Hbody); try (vm_compute; reflexivity).
  eexists. split; [exact Hst|]. split; [vm_compute; reflexivity|].
  split; [exact Hcode|exact Hbody].
Defined.

(** ** Rows *)

Lemma split_no_slash u : hasChar slash u = false -> split slash u = [u].
Proof.
  induction u as [|c r IH]; [reflexivity|].
  cbn [hasChar split]. intros H. apply orb_false_iff in H as [Hc Hr].
  rewrite Hc. now rewrite (IH Hr).
Qed.

Lemma split_nonempty sep u : split sep u <> [].
Proof.
  destruct u as [|c r]; [discriminate|]. cbn [split].
  destruct (Ascii.eqb c sep); [discriminate|].
  destruct (split sep r); discriminate.
Qed.

Lemma split_after_slash pre rest :
  exists seg segs,
    split slash (pre +:+ String slash rest) = (seg :: segs) ++ split slash rest.
Proof.
  induction pre as [|c pre (seg & segs & IH)].
  - exists EmptyString, []. reflexivity.
  - rewrite append_cons. cbn [split]. rewrite IH.
    destruct (Ascii.eqb c slash).
    + now exists EmptyString, (seg :: segs).
    + now exists (String c seg), segs.
Qed.

Lemma pop_split_after_slash pre seg :
  hasChar slash seg = false ->
  pop (split slash (pre +:+ String slash seg)) = Some seg.
Proof.
  intros H. destruct (split_after_slash pre seg) as (x & xs & ->).
  unfold pop. rewrite last_app, (split_no_slash seg H). reflexivity.
Qed.

Lemma idOf_no_slash u : hasChar slash u = false -> idOf u = u.
Proof.
  intros H. unfold idOf, pop. rewrite (split_no_slash u H). cbn [last].
  destruct (String.eqb u EmptyString); reflexivity.
Qed.

Lemma idOf_last_segment pre seg :
  hasChar slash seg = false -> seg <> EmptyString ->
  idOf (pre +:+ String slash seg) = seg.
Proof.
  intros H Hne. unfold idOf. rewrite (pop_split_after_slash pre seg H).
  apply String.eqb_neq in Hne. now rewrite Hne.
Qed.

Lemma idOf_trailing_slash pre :
  idOf (pre +:+ str1 slash) = pre +:+ str1 slash.
Proof.
  unfold idOf, str1.
  rewrite (pop_split_after_slash pre EmptyString) by reflexivity.
  reflexivity.
Qed.

Lemma nullish_missing v d : v = None \/ v = Some JNull -> nullish v d = d.
Proof. now intros [-> | ->]. Qed.

Lemma nullish_present v l d : v = Some l -> l <> JNull -> nullish v d = l.
Proof. intros -> H. now destruct l. Qed.

Lemma mapRow_row row :
  entityIsText row -> exists r, mapRow row = Return r.
Proof.
  intros Htext. unfold mapRow, uriOf. fold (entityValue row).
  destruct (entityValue row) as [v|] eqn:E; [|now eexists].
  destruct (Htext v E) as [->|[u ->]]; now eexists.
Qed.

(** C10, as stated, fails: the mapping is not total on every row that a
    2xx response can carry. On a row whose entity value is a number the
    call of split throws, and no row is returned. *)
Lemma mapRow_not_total :
  ~ exists r,
      mapRow (JObj [("e", JObj [("type", JStr "uri"); ("value", JNum 5)]);
                    ("shortLabel", JObj [("value", JStr "Ibuprofen")])])
      = Return r.
Proof. intros [r H]. vm_compute in H. discriminate. Qed.

(** C10, amended. For every binding row whose entity value is missing,
    null or a string, the mapping returns a row and does not throw. A
    missing (or null) entity value is read as the empty text and a
    missing short label as the empty string; a present label is taken as
    it is. The id is the text after the last slash of the URI, and the
    whole URI when that text is empty (the URI ends with a slash) or when
    there is no slash at all (which includes the empty URI). On every
    other row, one whose entity value is present and is not a string, the
    mapping throws a TypeError and returns no row. *)
Theorem mapRow_text_entity (row : json) :
  (entityIsText row ->
   exists u,
     uriOf row = JStr u
     /\ mapRow row = Return {| id := idOf u; label := labelOf row |}
     /\ (entityValue row = None \/ entityValue row = Some JNull ->
         u = EmptyString)
     /\ (labelValue row = None \/ labelValue row = Some JNull ->
         labelOf row = JStr EmptyString)
     /\ (forall l, labelValue row = Some l -> l <> JNull -> labelOf row = l)
     /\ (forall pre seg, u = pre +:+ String slash seg ->
           hasChar slash seg = false -> seg <> EmptyString -> idOf u = seg)
     /\ (forall pre, u = pre +:+ str1 slash -> idOf u = u)
     /\ (hasChar slash u = false -> idOf u = u))
  /\ (~ entityIsText row ->
      exists e, mapRow row = Throw e /\ err_name e = "TypeError").
Proof.
  split.
  - intros Htext.
    assert (Huri : exists u, uriOf row = JStr u
              /\ (entityValue row = None \/ entityValue row = Some JNull ->
                  u = EmptyString)).
    { unfold uriOf. fold (entityValue row). unfold entityIsText in Htext.
      destruct (entityValue row) as [v|] eqn:E.
      - destruct (Htext v eq_refl) as [->|[u ->]].
        + exists EmptyString. split; [reflexivity|reflexivity].
        + exists u. split; [reflexivity|]. intros [H|H]; discriminate.
      - exists EmptyString. split; reflexivity. }
    destruct Huri as (u & Hu & Hmissing). exists u.
    split; [exact Hu|]. split; [unfold mapRow; now rewrite Hu|].
    split; [exact Hmissing|].
    split; [intros H; now apply nullish_missing|].
    split; [intros l Hl Hn; now apply (nullish_present _ l)|].
    split; [intros pre seg -> Hs Hne; now apply idOf_last_segment|].
    split; [intros pre ->; apply idOf_trailing_slash|].
    apply idOf_no_slash.
  - intros Hbad. unfold mapRow, uriOf. fold (entityValue row).
    unfold entityIsText in Hbad.
    destruct (entityValue row) as [v|] eqn:E.
    + destruct v as [ |b|n|u|items|props]; cbn [nullish];
        try (eexists; split; reflexivity);
        exfalso; apply Hbad; intros v' [= <-]; [now left|right; now exists u].
    + exfalso. apply Hbad. intros v' Hv. discriminate.
Qed.

(** The row of the example: the id is the last path segment. *)
Lemma mapRow_text_entity_witness :
  mapRow sampleRow = Return {| id := "12345"; label := JStr "Ibuprofen" |}.
Proof.
  destruct (proj1 (mapRow_text_entity sampleRow)) as (u & Hu & Hmap & _).
  - intros v Hv. right. exists "http://x.org/drug/12345".
    vm_compute in Hv. now injection Hv as <-.
  - rewrite Hmap. injection Hu as <-. vm_compute. reflexivity.
Defined.

(** All rows of a well-formed response are mapped, in order. *)
Lemma mapRows_total (items : list json) :
  Forall entityIsText items ->
  exists rows, mapRows items = Return rows /\ length rows = length items.
Proof.
  induction 1 as [|row items Hrow _ (rows & IH & Hlen)].
  - now exists [].
  - destruct (mapRow_row row Hrow) as (r & Hr).
    exists (r :: rows). cbn [mapRows]. rewrite Hr, IH. cbn.
    split; [reflexivity|now rewrite Hlen].
Qed.

(** ** Debouncing *)

Lemma typeAll_burst rest : forall s t0 v0,
  s_timer s = Some (t0 + delayMs, v0) -> s_query s = v0 ->
  changes v0 rest -> withinWindow t0 rest ->
  typeAll s rest
  = setInput s (lastInput (t0, v0) rest).2
      (Some ((lastInput (t0, v0) rest).1 + delayMs, (lastInput (t0, v0) rest).2)).
Proof.
  induction rest as [|[t v] rest IH]; intros s t0 v0 Ht Hq Hch Hw.
  - cbn [typeAll foldl lastInput fst snd]. destruct s; cbn in *. now subst.
  - cbn [changes] in Hch. destruct Hch as [Hne Hch].
    cbn [withinWindow] in Hw. destruct Hw as (Hle & Hlt & Hw).
    cbn [typeAll foldl lastInput].
    assert (Hstep : typeAt s (t, v) = setInput s v (Some (t + delayMs, v))).
    { unfold typeAt, advance. cbn [fst snd]. rewrite Ht.
      apply Nat.leb_gt in Hlt. rewrite Hlt.
      cbn [step]. rewrite Hq. apply String.eqb_neq in Hne. now rewrite Hne. }
    rewrite Hstep.
    change (foldl typeAt ?x rest) with (typeAll x rest).
    rewrite (IH _ t v); [reflexivity|reflexivity|reflexivity|exact Hch|exact Hw].
Qed.

Lemma issuedSince_useSearchResults s0 s :
  length (s_requests s) = length (s_requests s0) ->
  issuedSince s0 (useSearchResults s)
  = if String.length (trim (s_debounced s)) <? 2 then []
    else match buildQuery (trim (s_debounced s)) (s_predicate s)
                 (LangStr (s_lang s)) with
         | Return sparql =>
             [{| rq_endpoint := s_endpoint s; rq_body := sparql;
                 rq_aborted := false; rq_settled := false |}]
         | Throw _ => []
         end.
Proof.
  intros Hlen. unfold issuedSince, useSearchResults, useSearchResults_effect, fetchSparql.
  assert (Hc : length (s_requests (useSearchResults_cleanup s)) = length (s_requests s0))
    by (rewrite length_useSearchResults_cleanup; exact Hlen).
  replace (s_debounced (useSearchResults_cleanup s)) with (s_debounced s)
    by (unfold useSearchResults_cleanup; now destruct (s_controller s)).
  replace (s_predicate (useSearchResults_cleanup s)) with (s_predicate s)
    by (unfold useSearchResults_cleanup; now destruct (s_controller s)).
  replace (s_lang (useSearchResults_cleanup s)) with (s_lang s)
    by (unfold useSearchResults_cleanup; now destruct (s_controller s)).
  replace (s_endpoint (useSearchResults_cleanup s)) with (s_endpoint s)
    by (unfold useSearchResults_cleanup; now destruct (s_controller s)).
  destruct (String.length (trim (s_debounced s)) <? 2).
  - cbn [s_requests setSearch]. apply drop_ge. lia.
  - destruct (buildQuery _ _ _); cbn [s_requests setSearch].
    + rewrite <- Hc. rewrite drop_app_length. reflexivity.
    + apply drop_ge. lia.
Qed.

(** C6, amended. A burst of input changes, each less than the delay after
    the one before, on a panel with no timeout pending: while the burst
    lasts no call of [fetch] is issued, and once the delay has passed
    after the last change at most one call has been issued. It is for the
    trimmed last text, and it is issued exactly when that text differs
    from the text debounced before the burst, has trimmed length at least
    2 and passes the validation of [buildQuery]. The debounced text ends
    as the last text of the burst. *)
Theorem debounce_coalescing (s : Stream) (t0 : nat) (v0 : string)
    (rest : list (nat * string)) (T : nat) :
  s_timer s = None ->
  v0 <> s_query s ->
  changes v0 rest ->
  withinWindow t0 rest ->
  (lastInput (t0, v0) rest).1 + delayMs <= T ->
  let burst := (t0, v0) :: rest in
  let text := (lastInput (t0, v0) rest).2 in
  let s' := advance T (typeAll s burst) in
  issuedSince s (typeAll s burst) = []
  /\ issuedSince s s' = expectedCalls s text
  /\ length (issuedSince s s') <= 1
  /\ s_debounced s' = text
  /\ s_timer s' = None.
Proof.
  intros Hn Hne Hch Hw HT burst text s'.
  assert (H1 : typeAt s (t0, v0) = setInput s v0 (Some (t0 + delayMs, v0))).
  { unfold typeAt, advance. cbn [fst snd]. rewrite Hn. cbn [step].
    apply String.eqb_neq in Hne. now rewrite Hne. }
  assert (Hb : typeAll s burst
               = setInput s text (Some ((lastInput (t0, v0) rest).1 + delayMs, text))).
  { unfold burst. cbn [typeAll foldl]. rewrite H1.
    change (foldl typeAt ?x rest) with (typeAll x rest).
    rewrite (typeAll_burst rest _ t0 v0); [reflexivity|reflexivity|reflexivity|exact Hch|exact Hw]. }
  assert (Hs' : s' = if String.eqb text (s_debounced s)
                     then setInput s text None
                     else useSearchResults (setDebounced (setInput s text None) text)).
  { unfold s'. rewrite Hb. unfold advance. cbn [s_timer setInput].
    apply Nat.leb_le in HT. rewrite HT. cbn [step s_timer setInput].
    reflexivity. }
  split; [rewrite Hb; unfold issuedSince; cbn [s_requests setInput]; apply drop_all|].
  assert (Hcalls : issuedSince s s' = expectedCalls s text).
  { rewrite Hs'. unfold expectedCalls.
    destruct (String.eqb text (s_debounced s)).
    - unfold issuedSince. cbn [s_requests setInput]. apply drop_all.
    - now rewrite issuedSince_useSearchResults. }
  split; [exact Hcalls|]. split.
  - rewrite Hcalls. unfold expectedCalls.
    destruct (String.eqb text (s_debounced s)); [cbn; lia|].
    destruct (String.length (trim text) <? 2); [cbn; lia|].
    destruct (buildQuery _ _ _); cbn; lia.
  - rewrite Hs'. destruct (String.eqb text (s_debounced s)) eqn:E.
    + apply String.eqb_eq in E. split; [now cbn|reflexivity].
    + split.
      * now rewrite s_debounced_useSearchResults.
      * unfold useSearchResults, useSearchResults_effect, useSearchResults_cleanup, fetchSparql.
        cbn [s_controller setDebounced setInput].
        destruct (s_controller s);
          cbn [s_debounced s_timer setSearch setDebounced setInput];
          (destruct (String.length (trim text) <? 2); [reflexivity|]);
          now destruct (buildQuery _ _ _).
Qed.

(** C6, as stated, fails: a burst that ends in a one-letter text issues no
    call, and neither does a burst that returns to the text that was
    searched last. *)
Lemma burst_without_call :
  ~ OneCallPerBurst restingPanel [(300, "i")] 1000
  /\ ~ OneCallPerBurst searchingIbu [(1000, "ib"); (1050, "ibu")] 2000.
Proof.
  split; intros [r H]; vm_compute in H; discriminate.
Qed.

(** The letters i, ib, ibu typed 50 ms apart: one call, for ibu. *)
Lemma debounce_coalescing_witness :
  issuedSince restingPanel
    (advance 600 (typeAll restingPanel [(300, "i"); (350, "ib"); (400, "ibu")]))
  = [{| rq_endpoint := "/graphdb/repositories/dakikg";
        rq_body := filledTemplate "ibu" "rdfs:label" "en";
        rq_aborted := false; rq_settled := false |}].
Proof.
  destruct (debounce_coalescing restingPanel 300 "i"
              [(350, "ib"); (400, "ibu")] 600) as (_ & H & _).
  - reflexivity.
  - discriminate.
  - cbn. repeat split; discriminate.
  - cbn. unfold delayMs. lia.
  - cbn. unfold delayMs. lia.
  - rewrite H. vm_compute. reflexivity.
Defined.

(** ** Filling the template *)

Lemma append_assoc x y z : (x +:+ y) +:+ z = x +:+ (y +:+ z).
Proof.
  induction x as [|c x IH]; [reflexivity|].
  rewrite !append_cons. now rewrite IH.
Qed.

Lemma filledTemplate_parts search predicate lang :
  filledTemplate search predicate lang
  = templateHead +:+ search +:+ templateMid1 +:+ predicate
      +:+ templateMid2 +:+ lang +:+ templateTail.
Proof. reflexivity. Qed.

Lemma getSubstitution_plain m b a r :
  hasChar dollar r = false -> getSubstitution m b a r = r.
Proof.
  induction r as [|c r IH]; [reflexivity|].
  cbn [hasChar]. intros H. apply orb_false_iff in H as [Hc Hr].
  cbn [getSubstitution]. rewrite Hc. now rewrite (IH Hr).
Qed.

Lemma mismatch_dropPrefix p : forall x z,
  mismatch p x = true -> dropPrefix p (x +:+ z) = None.
Proof.
  induction p as [|a p IH]; intros [|b x] z H; try discriminate.
  rewrite append_cons. cbn [dropPrefix]. cbn [mismatch] in H.
  destruct (Ascii.eqb a b); [now apply IH|reflexivity].
Qed.

Lemma prepend_empty r : prepend EmptyString r = r.
Proof. now destruct r as [[b a]|]. Qed.

Lemma prepend_cons c x r :
  match prepend x r with
  | Some (before, after) => Some (String c before, after)
  | None => None
  end = prepend (String c x) r.
Proof. now destruct r as [[b a]|]. Qed.

Lemma splitFirst_clear p x z :
  clearOf p x = true -> splitFirst p (x +:+ z) = prepend x (splitFirst p z).
Proof.
  induction x as [|c x IH]; intros H.
  - now rewrite append_empty, prepend_empty.
  - cbn [clearOf] in H. apply andb_true_iff in H as [Hm Hc].
    rewrite splitFirst_unfold, (mismatch_dropPrefix _ _ _ Hm).
    rewrite append_cons, (IH Hc). apply prepend_cons.
Qed.

Lemma dropPrefix_within p : forall e c z r,
  dropPrefix p (e +:+ String c z) = Some r -> hasChar c p = false ->
  exists r', dropPrefix p e = Some r'.
Proof.
  induction p as [|a p IH]; intros e c z r H Hc; [now eexists|].
  cbn [hasChar] in Hc. apply orb_false_iff in Hc as [Hac Hc].
  destruct e as [|b e].
  - rewrite append_empty in H. cbn [dropPrefix] in H.
    rewrite Hac in H. discriminate.
  - rewrite append_cons in H. cbn [dropPrefix] in *.
    destruct (Ascii.eqb a b); [now apply (IH e c z r)|discriminate].
Qed.

Lemma contains_false_tail p c e :
  contains p (String c e) = false -> contains p e = false.
Proof.
  intros H. destruct (contains p e) eqn:E; [|reflexivity].
  apply (contains_cons p c) in E. congruence.
Qed.

Lemma contains_false_head p e :
  contains p e = false -> dropPrefix p e = None.
Proof.
  unfold contains. rewrite splitFirst_unfold.
  now destruct (dropPrefix p e).
Qed.

Lemma splitFirst_absent p e c z :
  contains p e = false -> hasChar c p = false ->
  splitFirst p (e +:+ String c z) = prepend e (splitFirst p (String c z)).
Proof.
  intros He Hc. induction e as [|d e IH].
  - now rewrite append_empty, prepend_empty.
  - rewrite splitFirst_unfold.
    destruct (dropPrefix p (String d e +:+ String c z)) as [r|] eqn:E.
    + destruct (dropPrefix_within p _ c z r E Hc) as [r' Hr'].
      apply contains_false_head in He. congruence.
    + rewrite append_cons, (IH (contains_false_tail _ _ _ He)).
      apply prepend_cons.
Qed.

(** Where the claim on the three slots holds: when the escaped text has no
    dollar sign and contains neither of the placeholders qPred and qLang,
    the result is the template with the escaped text, the predicate and
    the lower-cased language code in its slots. *)
Lemma buildQuery_fills_slots query predicate lang :
  langAllowed lang -> predicateRecognized predicate ->
  hasChar dollar (escapeSparqlStringLiteral query) = false ->
  contains "qPred" (escapeSparqlStringLiteral query) = false ->
  contains "qLang" (escapeSparqlStringLiteral query) = false ->
  buildQuery query predicate lang
  = Return (filledTemplate (escapeSparqlStringLiteral query) predicate
              (normalizeLang lang)).
Proof.
  intros Hl Hp Hd Hpred Hlang.
  rewrite (buildQuery_valid _ _ _ Hl Hp). f_equal.
  set (e := escapeSparqlStringLiteral query) in *.
  assert (H0 : replace "q0" e SPARQL_TEMPLATE
               = templateHead +:+ e +:+ templateMid1 +:+ "qPred"
                   +:+ templateMid2 +:+ "qLang" +:+ templateTail).
  { unfold replace.
    replace (splitFirst "q0" SPARQL_TEMPLATE)
      with (Some (templateHead,
                  templateMid1 +:+ "qPred" +:+ templateMid2 +:+ "qLang"
                    +:+ templateTail)) by (vm_compute; reflexivity).
    now rewrite (getSubstitution_plain _ _ _ _ Hd). }
  rewrite H0.
  assert (H1 : forall p, hasChar dollar p = false ->
            clearOf "qLang" p = true ->
            replace "qLang" (normalizeLang lang)
              (replace "qPred" p
                 (templateHead +:+ e +:+ templateMid1 +:+ "qPred"
                    +:+ templateMid2 +:+ "qLang" +:+ templateTail))
            = filledTemplate e p (normalizeLang lang)).
  { intros p Hdp Hcp.
    assert (Hq : replace "qPred" p
                   (templateHead +:+ e +:+ templateMid1 +:+ "qPred"
                      +:+ templateMid2 +:+ "qLang" +:+ templateTail)
                 = templateHead +:+ e +:+ templateMid1 +:+ p
                     +:+ templateMid2 +:+ "qLang" +:+ templateTail).
    { unfold replace.
      rewrite (splitFirst_clear "qPred" templateHead) by (vm_compute; reflexivity).
      change (templateMid1 +:+ ?z)
        with (String dquote (" ." +:+ nl +:+ "  ?e " +:+ z)).
      rewrite (splitFirst_absent "qPred" e dquote) by (exact Hpred || reflexivity).
      change (String dquote (" ." +:+ nl +:+ "  ?e " +:+ ?z))
        with (templateMid1 +:+ z).
      rewrite (splitFirst_clear "qPred" templateMid1) by (vm_compute; reflexivity).
      rewrite splitFirst_unfold, dropPrefix_app.
      cbn [prepend]. rewrite (getSubstitution_plain _ _ _ _ Hdp).
      rewrite !append_assoc. reflexivity. }
    rewrite Hq. unfold replace.
    rewrite (splitFirst_clear "qLang" templateHead) by (vm_compute; reflexivity).
    change (templateMid1 +:+ ?z)
      with (String dquote (" ." +:+ nl +:+ "  ?e " +:+ z)).
    rewrite (splitFirst_absent "qLang" e dquote) by (exact Hlang || reflexivity).
    change (String dquote (" ." +:+ nl +:+ "  ?e " +:+ ?z))
      with (templateMid1 +:+ z).
    rewrite (splitFirst_clear "qLang" templateMid1) by (vm_compute; reflexivity).
    rewrite (splitFirst_clear "qLang" p) by exact Hcp.
    rewrite (splitFirst_clear "qLang" templateMid2) by (vm_compute; reflexivity).
    rewrite splitFirst_unfold, dropPrefix_app.
    cbn [prepend].
    assert (Hdl : hasChar dollar (normalizeLang lang) = false)
      by (destruct Hl as [-> | ->]; reflexivity).
    rewrite (getSubstitution_plain _ _ _ _ Hdl).
    rewrite filledTemplate_parts, !append_assoc. reflexivity. }
  destruct Hp as [-> | ->]; apply H1; reflexivity.
Qed.

(** Escaping neither brings in a dollar sign nor creates an occurrence of
    a text that is free of backslashes and double quotes. *)

Lemma hasChar_app d x y : hasChar d (x +:+ y) = hasChar d x || hasChar d y.
Proof.
  induction x as [|c x IH]; [reflexivity|].
  rewrite append_cons. cbn [hasChar]. now rewrite IH, orb_assoc.
Qed.

Lemma replaceAllFrom_plain c r b d s :
  hasChar dollar r = false ->
  replaceAllFrom c r b (String d s)
  = if Ascii.eqb d c then r +:+ replaceAllFrom c r (b +:+ str1 d) s
    else String d (replaceAllFrom c r (b +:+ str1 d) s).
Proof.
  intros H. rewrite replaceAllFrom_cons.
  now rewrite (getSubstitution_plain _ _ _ _ H).
Qed.

Lemma hasChar_replaceAllFrom d c r s : forall b,
  hasChar dollar r = false -> hasChar d r = false ->
  hasChar d s = false -> hasChar d (replaceAllFrom c r b s) = false.
Proof.
  induction s as [|e s IH]; intros b Hr Hd Hs; [reflexivity|].
  rewrite (replaceAllFrom_plain _ _ _ _ _ Hr).
  cbn [hasChar] in Hs. apply orb_false_iff in Hs as [He Hs].
  destruct (Ascii.eqb e c).
  - rewrite hasChar_app, Hd. now apply IH.
  - cbn [hasChar]. rewrite He. now apply IH.
Qed.

Lemma dropPrefix_replaceAllFrom c r0 r' a : forall p s b x,
  hasChar dollar (String r0 r') = false ->
  hasChar r0 (String a p) = false ->
  dropPrefix (String a p) (replaceAllFrom c (String r0 r') b s) = Some x ->
  exists y, dropPrefix (String a p) s = Some y.
Proof.
  intros p s. revert a p.
  induction s as [|d s IH]; intros a p b x Hr H0 H; [discriminate|].
  rewrite (replaceAllFrom_plain _ _ _ _ _ Hr) in H.
  cbn [hasChar] in H0. apply orb_false_iff in H0 as [Ha0 Hp0].
  destruct (Ascii.eqb d c).
  - rewrite append_cons in H. cbn [dropPrefix] in H.
    rewrite Ha0 in H. discriminate.
  - cbn [dropPrefix] in H |- *. destruct (Ascii.eqb a d); [|discriminate].
    destruct p as [|a' p]; [now eexists|].
    exact (IH a' p (b +:+ str1 d) x Hr Hp0 H).
Qed.

Lemma contains_step p ch t :
  contains p (String ch t) = true -> dropPrefix p (String ch t) = None ->
  contains p t = true.
Proof.
  unfold contains. rewrite (splitFirst_unfold p (String ch t)).
  intros H E. rewrite E in H. now destruct (splitFirst p t).
Qed.

Lemma contains_dropPrefix p t x : dropPrefix p t = Some x -> contains p t = true.
Proof. intros H. unfold contains. rewrite splitFirst_unfold. now rewrite H. Qed.

Lemma contains_after_block a p r : forall t,
  noneIn r (String a p) = true ->
  contains (String a p) (r +:+ t) = true -> contains (String a p) t = true.
Proof.
  induction r as [|ch r IH]; intros t Hn H; [exact H|].
  cbn [noneIn] in Hn. apply andb_true_iff in Hn as [Hch Hn].
  apply negb_true_iff in Hch. cbn [hasChar] in Hch.
  apply orb_false_iff in Hch as [Hch _].
  rewrite append_cons in H. apply IH; [exact Hn|].
  apply (contains_step _ ch); [exact H|].
  cbn [dropPrefix]. now rewrite Hch.
Qed.

Lemma contains_replaceAllFrom c r0 r' a p s : forall b,
  hasChar dollar (String r0 r') = false ->
  noneIn (String r0 r') (String a p) = true ->
  contains (String a p) (replaceAllFrom c (String r0 r') b s) = true ->
  contains (String a p) s = true.
Proof.
  induction s as [|d s IH]; intros b Hr Hn H; [discriminate|].
  rewrite (replaceAllFrom_plain _ _ _ _ _ Hr) in H.
  destruct (Ascii.eqb d c) eqn:Edc.
  - apply contains_cons. apply (IH (b +:+ str1 d) Hr Hn).
    now apply (contains_after_block a p (String r0 r')).
  - destruct (dropPrefix (String a p)
                (String d (replaceAllFrom c (String r0 r') (b +:+ str1 d) s)))
      as [x|] eqn:E.
    + assert (E' : dropPrefix (String a p)
                     (replaceAllFrom c (String r0 r') b (String d s)) = Some x)
        by (rewrite (replaceAllFrom_plain _ _ _ _ _ Hr), Edc; exact E).
      apply dropPrefix_replaceAllFrom in E' as [y Hy]; [|exact Hr|].
      * now apply contains_dropPrefix in Hy.
      * cbn [noneIn] in Hn. apply andb_true_iff in Hn as [Hn _].
        now apply negb_true_iff in Hn.
    + apply contains_cons. apply (IH (b +:+ str1 d) Hr Hn).
      now apply (contains_step _ d).
Qed.

Lemma escape_keeps_dollar_free query :
  hasChar dollar query = false ->
  hasChar dollar (escapeSparqlStringLiteral query) = false.
Proof.
  intros H. unfold escapeSparqlStringLiteral, replaceAll.
  apply hasChar_replaceAllFrom; try reflexivity.
  apply hasChar_replaceAllFrom; try reflexivity. exact H.
Qed.

Lemma escape_keeps_absent a p query :
  noneIn (String backslash dq) (String a p) = true ->
  contains (String a p) query = false ->
  contains (String a p) (escapeSparqlStringLiteral query) = false.
Proof.
  intros Hn H.
  destruct (contains (String a p) (escapeSparqlStringLiteral query)) eqn:E;
    [|reflexivity].
  unfold escapeSparqlStringLiteral, replaceAll in E.
  apply contains_replaceAllFrom in E; [|reflexivity|exact Hn].
  apply contains_replaceAllFrom in E; [congruence|reflexivity|].
  cbn [noneIn dq str1] in *. apply andb_true_iff in Hn as [Hb _].
  now rewrite Hb.
Qed.

(** For a search text without a dollar sign that contains neither qPred
    nor qLang, [buildQuery] fills the three slots as the specification
    says. *)
Lemma buildQuery_fills_slots_of_text query predicate lang :
  langAllowed lang -> predicateRecognized predicate ->
  hasChar dollar query = false ->
  contains "qPred" query = false ->
  contains "qLang" query = false ->
  buildQuery query predicate lang
  = Return (filledTemplate (escapeSparqlStringLiteral query) predicate
              (normalizeLang lang)).
Proof.
  intros Hl Hp Hd Hpred Hlang.
  apply buildQuery_fills_slots; try assumption.
  - now apply escape_keeps_dollar_free.
  - now apply escape_keeps_absent.
  - now apply escape_keeps_absent.
Qed.

(** C2. The claim on the three slots fails on the code for some search
    texts. [buildQuery] substitutes by three successive first-occurrence
    replacements, and the replacement text of [replace] is expanded: for
    the search text qPred the second replacement hits the search slot, so
    the predicate lands there and the predicate slot keeps its
    placeholder; for the text qLang the language code lands in the search
    slot; for the text made of a dollar sign and an ampersand the search
    slot receives the matched placeholder q0. The panel sends such a
    query when the user types the text. *)
Theorem buildQuery_placeholder_collision :
  buildQuery "qPred" "rdfs:label" (LangStr "en")
    = Return (filledTemplate "rdfs:label" "qPred" "en")
  /\ buildQuery "qPred" "rdfs:label" (LangStr "en")
     <> Return (filledTemplate (escapeSparqlStringLiteral "qPred")
                  "rdfs:label" "en")
  /\ buildQuery "qLang" "rdfs:label" (LangStr "en")
     = Return (filledTemplate "en" "rdfs:label" "qLang")
  /\ buildQuery "$&" "rdfs:label" (LangStr "en")
     = Return (filledTemplate "q0" "rdfs:label" "en")
  /\ issuedSince restingPanel
       (advance 600 (typeAll restingPanel [(300, "qPred")]))
     = [{| rq_endpoint := "/graphdb/repositories/dakikg";
           rq_body := filledTemplate "rdfs:label" "qPred" "en";
           rq_aborted := false; rq_settled := false |}].
Proof.
  split; [vm_compute; reflexivity|].
  split; [vm_compute; discriminate|].
  split; [vm_compute; reflexivity|].
  split; vm_compute; reflexivity.
Qed.

(** The same inputs with a harmless search text fill the slots. *)
Example buildQuery_quinine :
  buildQuery "quinine" "skos:prefLabel" (LangStr " NL ")
  = Return (filledTemplate "quinine" "skos:prefLabel" "nl").
Proof.
  rewrite buildQuery_fills_slots_of_text;
    [reflexivity|right; reflexivity|right; reflexivity| reflexivity ..].
Qed.

(** Outside the results format: an entity value that is a number makes
    the mapping throw. *)
Example mapRow_number :
  mapRow (JObj [("e", JObj [("value", JNum 5)])])
  = Throw (TypeError "uri.split is not a function").
Proof. reflexivity. Qed.

(* ================================================================== *)
(** * Part III. Further properties of the code *)
(* ================================================================== *)

(** ** More on escaping *)

Lemma replaceAllFrom_absent c r s : forall b,
  hasChar c s = false -> replaceAllFrom c r b s = s.
Proof.
  induction s as [|d s IH]; intros b H; [reflexivity|].
  cbn [hasChar] in H. apply orb_false_iff in H as [Hd Hs].
  rewrite replaceAllFrom_cons, Hd. now rewrite IH.
Qed.

Lemma replaceAllFrom_before c r s : forall b b',
  hasChar dollar r = false ->
  replaceAllFrom c r b s = replaceAllFrom c r b' s.
Proof.
  induction s as [|d s IH]; intros b b' H; [reflexivity|].
  rewrite !(replaceAllFrom_plain _ _ _ _ _ H).
  now rewrite (IH (b +:+ str1 d) (b' +:+ str1 d) H).
Qed.

Lemma replaceAllFrom_app c r x y : forall b,
  hasChar dollar r = false ->
  replaceAllFrom c r b (x +:+ y)
  = replaceAllFrom c r b x +:+ replaceAllFrom c r b y.
Proof.
  induction x as [|d x IH]; intros b H.
  - reflexivity.
  - rewrite append_cons, !(replaceAllFrom_plain _ _ _ _ _ H).
    rewrite (IH _ H), (replaceAllFrom_before c r y (b +:+ str1 d) b H).
    destruct (Ascii.eqb d c); [now rewrite append_assoc|reflexivity].
Qed.

(** X1. A text without backslash and without double quote is its own
    escaped form. *)
Theorem escape_plain_text (value : string) :
  hasChar backslash value = false -> hasChar dquote value = false ->
  escapeSparqlStringLiteral value = value.
Proof.
  intros Hb Hq. unfold escapeSparqlStringLiteral, replaceAll.
  rewrite (replaceAllFrom_absent backslash _ value _ Hb).
  now apply replaceAllFrom_absent.
Qed.

Lemma escape_plain_text_witness :
  escapeSparqlStringLiteral "renal pain" = "renal pain".
Proof. apply (escape_plain_text "renal pain"); reflexivity. Defined.

(** X2. Escaping works character by character: the escaped form of a
    concatenation is the concatenation of the escaped forms. *)
Theorem escape_app (x y : string) :
  escapeSparqlStringLiteral (x +:+ y)
  = escapeSparqlStringLiteral x +:+ escapeSparqlStringLiteral y.
Proof.
  unfold escapeSparqlStringLiteral, replaceAll.
  rewrite replaceAllFrom_app by reflexivity.
  now rewrite replaceAllFrom_app by reflexivity.
Qed.

(** X3. Escaping loses nothing: two texts with the same escaped form are
    the same text. *)
Theorem escape_injective (x y : string) :
  escapeSparqlStringLiteral x = escapeSparqlStringLiteral y -> x = y.
Proof.
  intros H.
  assert (Hx := parse_escaped_from x EmptyString EmptyString).
  assert (Hy := parse_escaped_from y EmptyString EmptyString).
  fold (replaceAll backslash (String backslash (str1 backslash)) x) in Hx.
  fold (replaceAll backslash (String backslash (str1 backslash)) y) in Hy.
  unfold escapeSparqlStringLiteral, replaceAll in H.
  unfold replaceAll in Hx, Hy. rewrite H in Hx. congruence.
Qed.

Lemma escape_injective_witness : "ibu" = "ibu".
Proof. apply (escape_injective "ibu" "ibu"). reflexivity. Defined.

(** ** More on [buildQuery] *)

(** X4. For an accepted language code, its case and the white space
    around it make no difference to the result of [buildQuery]. *)
Theorem buildQuery_normalized_lang (query predicate : string) (lang : LangArg) :
  langAllowed lang ->
  buildQuery query predicate lang
  = buildQuery query predicate (LangStr (normalizeLang lang)).
Proof.
  intros Hl.
  assert (Hn : normalizeLang (LangStr (normalizeLang lang)) = normalizeLang lang)
    by (destruct Hl as [H|H]; rewrite H; reflexivity).
  assert (Hi := proj2 (includes_LANG_OPTIONS lang) Hl).
  unfold buildQuery. rewrite Hn, Hi. reflexivity.
Qed.

Lemma buildQuery_normalized_lang_witness :
  buildQuery "ibu" "rdfs:label" (LangStr " EN ")
  = buildQuery "ibu" "rdfs:label" (LangStr "en").
Proof.
  apply (buildQuery_normalized_lang "ibu" "rdfs:label" (LangStr " EN ")).
  left. reflexivity.
Defined.

(** X5. A language that is absent (undefined or null), empty or made of
    white space only is rejected with the language message. *)
Theorem buildQuery_blank_lang (query predicate : string) (lang : LangArg) :
  trim (langOrEmpty lang) = EmptyString ->
  buildQuery query predicate lang = Throw (Error (languageMessage lang)).
Proof.
  intros H. apply buildQuery_bad_lang.
  unfold langAllowed, normalizeLang. rewrite H.
  intros [E|E]; discriminate.
Qed.

Lemma buildQuery_blank_lang_witness :
  buildQuery "ibu" "rdfs:label" LangUndefined
  = Throw (Error "Unsupported language: undefined. Expected en or nl.").
Proof.
  apply (buildQuery_blank_lang "ibu" "rdfs:label" LangUndefined). reflexivity.
Defined.

Lemma replace_after_clear p r x z :
  clearOf p x = true -> exists rest, replace p r (x +:+ z) = x +:+ rest.
Proof.
  intros H. unfold replace. rewrite (splitFirst_clear p x z H).
  destruct (splitFirst p z) as [[b a]|]; cbn [prepend].
  - eexists. rewrite append_assoc. reflexivity.
  - now eexists.
Qed.

(** X6. Whatever the search text, a query that [buildQuery] returns
    starts with the PREFIX lines and the SELECT clause of the template,
    up to the opening quote of the search slot. *)
Theorem buildQuery_keeps_head (query predicate : string) (lang : LangArg) :
  langAllowed lang -> predicateRecognized predicate ->
  exists rest, buildQuery query predicate lang = Return (templateHead +:+ rest).
Proof.
  intros Hl Hp. rewrite (buildQuery_valid _ _ _ Hl Hp).
  change SPARQL_TEMPLATE
    with (templateHead +:+ "q0" +:+ templateMid1 +:+ "qPred"
            +:+ templateMid2 +:+ "qLang" +:+ templateTail).
  destruct (replace_after_clear "q0" (escapeSparqlStringLiteral query)
              templateHead
              ("q0" +:+ templateMid1 +:+ "qPred" +:+ templateMid2 +:+ "qLang"
                 +:+ templateTail)) as [r0 ->]; [vm_compute; reflexivity|].
  destruct (replace_after_clear "qPred" predicate templateHead r0)
    as [r1 ->]; [vm_compute; reflexivity|].
  destruct (replace_after_clear "qLang" (normalizeLang lang) templateHead r1)
    as [r2 ->]; [vm_compute; reflexivity|].
  now exists r2.
Qed.

Lemma buildQuery_keeps_head_witness :
  exists rest,
    buildQuery "$' qPred $&" "skos:prefLabel" (LangStr "nl")
    = Return (templateHead +:+ rest).
Proof.
  apply (buildQuery_keeps_head "$' qPred $&" "skos:prefLabel" (LangStr "nl")).
  - right. reflexivity.
  - right. reflexivity.
Defined.

(** ** More on the id of a row *)

Lemma last_slash u :
  hasChar slash u = false
  \/ exists pre seg, u = pre +:+ String slash seg /\ hasChar slash seg = false.
Proof.
  induction u as [|c u [IH|(pre & seg & -> & Hseg)]].
  - now left.
  - cbn [hasChar]. destruct (Ascii.eqb c slash) eqn:E.
    + right. exists EmptyString, u. apply Ascii.eqb_eq in E. now subst c.
    + left. now rewrite IH.
  - right. now exists (String c pre), seg.
Qed.

(** X7. The id of a row is always an end piece of the URI, and unless it
    is the whole URI it is not empty and has no slash in it. *)
Theorem idOf_suffix (uri : string) :
  (exists pre, uri = pre +:+ idOf uri)
  /\ (idOf uri <> uri ->
      idOf uri <> EmptyString /\ hasChar slash (idOf uri) = false).
Proof.
  destruct (last_slash uri) as [H|(pre & seg & -> & Hseg)].
  - rewrite (idOf_no_slash uri H). split; [now exists EmptyString|congruence].
  - destruct (String.eqb seg EmptyString) eqn:E.
    + apply String.eqb_eq in E. subst seg.
      change (String slash EmptyString) with (str1 slash).
      rewrite idOf_trailing_slash. split; [now exists EmptyString|congruence].
    + apply String.eqb_neq in E.
      rewrite (idOf_last_segment pre seg Hseg E). split.
      * exists (pre +:+ str1 slash). now rewrite append_assoc.
      * now intros _.
Qed.

Lemma idOf_suffix_witness :
  idOf "http://x.org/drug/12345" <> EmptyString
  /\ hasChar slash (idOf "http://x.org/drug/12345") = false.
Proof.
  apply (proj2 (idOf_suffix "http://x.org/drug/12345")).
  vm_compute. discriminate.
Defined.

(** ** More on the decoding of responses *)

Lemma mapRow_rowOfBinding row :
  entityIsText row -> mapRow row = Return (rowOfBinding row).
Proof.
  intros Htext. unfold mapRow, rowOfBinding, uriText, uriOf.
  fold (entityValue row).
  destruct (entityValue row) as [v|] eqn:E; [|reflexivity].
  destruct (Htext v E) as [->|[u ->]]; reflexivity.
Qed.

Lemma mapRows_map items :
  Forall entityIsText items -> mapRows items = Return (map rowOfBinding items).
Proof.
  induction 1 as [|row items Hrow _ IH]; [reflexivity|].
  cbn [mapRows map]. now rewrite (mapRow_rowOfBinding row Hrow), IH.
Qed.

(** X8. When a 2xx response with at least one binding arrives for a
    request that is neither aborted nor settled, and every binding is a
    row of the results format, the outcome is the list of their rows, one
    per binding and in the order of the bindings; nothing else is set. *)
Theorem rows_in_order (s : Stream) (i : nat) (rq : Request)
    (response : Response) (payload : json) (items : list json) :
  s_requests s !! i = Some rq ->
  rq_aborted rq = false -> rq_settled rq = false ->
  ok response = true ->
  bodyJson response = Return payload ->
  bindingsOf payload = JArr items ->
  items <> [] ->
  Forall entityIsText items ->
  s_state (step s (FetchSettle i (FetchResponse response)))
  = {| loading := false; error := None; info := None;
       results := map rowOfBinding items |}.
Proof.
  intros Hi Ha Hs Hok Hjson Hb Hne Hrows.
  rewrite (settle_current s i rq _ Hi Ha Hs).
  cbn [settleFetch]. unfold decodeResponse.
  rewrite Hok, Hjson. cbn [negb mbind completion_bind]. rewrite Hb.
  rewrite (mapRows_map items Hrows). cbn [mbind completion_bind].
  destruct items as [|row items]; [congruence|reflexivity].
Qed.

Lemma rows_in_order_witness :
  s_state (step searchingIbu (FetchSettle 0 (FetchResponse sampleResponse)))
  = {| loading := false; error := None; info := None;
       results := [{| id := "12345"; label := JStr "Ibuprofen" |}] |}.
Proof.
  rewrite (rows_in_order searchingIbu 0
             {| rq_endpoint := "/graphdb/repositories/dakikg";
                rq_body := filledTemplate "ibu" "rdfs:label" "en";
                rq_aborted := false; rq_settled := false |}
             sampleResponse
             (JObj [("results", JObj [("bindings",
                JArr [JObj [("e", JObj [("value", JStr "http://x.org/drug/12345")]);
                            ("shortLabel", JObj [("value", JStr "Ibuprofen")])]])])])
             [JObj [("e", JObj [("value", JStr "http://x.org/drug/12345")]);
                    ("shortLabel", JObj [("value", JStr "Ibuprofen")])]]);
    try (vm_compute; reflexivity).
  - discriminate.
  - constructor; [|constructor].
    intros v Hv. right. exists "http://x.org/drug/12345".
    vm_compute in Hv. now injection Hv as <-.
Defined.

Lemma mapRows_bad items row :
  In row items -> (forall u, uriOf row <> JStr u) ->
  mapRows items = Throw (TypeError "uri.split is not a function").
Proof.
  intros Hin Hbad. induction items as [|r items IH]; [destruct Hin|].
  cbn [mapRows]. unfold mapRow at 1.
  destruct (uriOf r) as [ | | |u| | ] eqn:E; try reflexivity.
  destruct Hin as [->|Hin]; [now destruct (Hbad u)|].
  cbn [mbind completion_bind]. now rewrite (IH Hin).
Qed.

(** X9. A 2xx response whose payload breaks the expected shape, with a
    bindings entry that is not an array or with one binding whose entity
    value is not a string, yields no rows at all: [fetchSparql] rejects
    with a TypeError and the outcome is an error. *)
Theorem malformed_payload (s : Stream) (i : nat) (rq : Request)
    (response : Response) (payload : json) :
  s_requests s !! i = Some rq ->
  rq_aborted rq = false -> rq_settled rq = false ->
  ok response = true ->
  bodyJson response = Return payload ->
  ((forall items, bindingsOf payload <> JArr items)
   \/ exists items row, bindingsOf payload = JArr items /\ In row items
                        /\ forall u, uriOf row <> JStr u) ->
  (exists e, decodeResponse response = Throw e /\ err_name e = "TypeError")
  /\ exists msg,
       s_state (step s (FetchSettle i (FetchResponse response)))
       = {| loading := false; error := Some msg; info := None; results := [] |}.
Proof.
  intros Hi Ha Hs Hok Hjson Hshape.
  assert (Hd : exists msg, decodeResponse response = Throw (TypeError msg)
                           /\ String.eqb msg EmptyString = false).
  { unfold decodeResponse. rewrite Hok, Hjson. cbn [negb mbind completion_bind].
    destruct Hshape as [Hnot|(items & row & Hb & Hin & Hbad)].
    - destruct (bindingsOf payload) eqn:E;
        try (eexists; split; reflexivity).
      now destruct (Hnot items).
    - rewrite Hb, (mapRows_bad items row Hin Hbad).
      eexists; split; reflexivity. }
  destruct Hd as (msg & Hd & Hmsg). split; [now exists (TypeError msg)|].
  exists msg. rewrite (settle_current s i rq _ Hi Ha Hs).
  cbn [settleFetch]. rewrite Hd. cbn [applySettlement].
  unfold onRejected. cbn [err_name err_message TypeError]. now rewrite Hmsg.
Qed.

Lemma malformed_payload_witness :
  exists msg,
    s_state (step searchingIbu
               (FetchSettle 0 (FetchResponse
                  {| status := 200; statusText := "OK";
                     bodyText := Return EmptyString;
                     bodyJson := Return (JObj [("results",
                                   JObj [("bindings", JStr "none")])]) |})))
    = {| loading := false; error := Some msg; info := None; results := [] |}.
Proof.
  eapply (malformed_payload searchingIbu 0); try (vm_compute; reflexivity).
  left. intros items H. vm_compute in H. discriminate.
Defined.

(** X10. When the fetch of a request that is neither aborted nor settled
    is rejected, or the body of its 2xx response cannot be read as JSON,
    and the error is not named AbortError, the outcome is an error that
    shows the message of that error, or its name when the message is
    empty. *)
Theorem transport_error_shown (s : Stream) (i : nat) (rq : Request)
    (o : FetchOutcome) (e : JsError) :
  s_requests s !! i = Some rq ->
  rq_aborted rq = false -> rq_settled rq = false ->
  (o = FetchRejected e
   \/ exists response, o = FetchResponse response /\ ok response = true
                       /\ bodyJson response = Throw e) ->
  err_name e <> "AbortError" ->
  s_state (step s (FetchSettle i o))
  = {| loading := false;
       error := Some (if String.eqb (err_message e) EmptyString
                      then err_name e else err_message e);
       info := None; results := [] |}.
Proof.
  intros Hi Ha Hs Ho Hn.
  rewrite (settle_current s i rq _ Hi Ha Hs).
  assert (Hd : settleFetch o = Throw e).
  { destruct Ho as [->|(response & -> & Hok & Hjson)]; [reflexivity|].
    cbn [settleFetch]. unfold decodeResponse. now rewrite Hok, Hjson. }
  rewrite Hd. cbn [applySettlement]. unfold onRejected.
  apply String.eqb_neq in Hn. rewrite Hn.
  destruct (String.eqb (err_message e) EmptyString) eqn:Em; [|reflexivity].
  unfold errorToString. rewrite Em.
  destruct (String.eqb (err_name e) EmptyString) eqn:En; [|reflexivity].
  apply String.eqb_eq in Em, En. now rewrite Em, En.
Qed.

Lemma transport_error_shown_witness :
  s_state (step searchingIbu
             (FetchSettle 0 (FetchRejected (TypeError "Failed to fetch"))))
  = {| loading := false; error := Some "Failed to fetch"; info := None;
       results := [] |}.
Proof.
  eapply (transport_error_shown searchingIbu 0 _ _ (TypeError "Failed to fetch"));
    try (vm_compute; reflexivity).
  - left. reflexivity.
  - discriminate.
Defined.

(** ** More invariants of a panel *)

Lemma frame_cleanup s :
  s_endpoint (useSearchResults_cleanup s) = s_endpoint s
  /\ s_predicate (useSearchResults_cleanup s) = s_predicate s
  /\ s_lang (useSearchResults_cleanup s) = s_lang s
  /\ s_query (useSearchResults_cleanup s) = s_query s
  /\ s_timer (useSearchResults_cleanup s) = s_timer s
  /\ s_debounced (useSearchResults_cleanup s) = s_debounced s
  /\ s_state (useSearchResults_cleanup s) = s_state s.
Proof.
  unfold useSearchResults_cleanup. destruct (s_controller s); repeat split.
Qed.

Lemma frame_effect s :
  s_endpoint (useSearchResults_effect s) = s_endpoint s
  /\ s_predicate (useSearchResults_effect s) = s_predicate s
  /\ s_lang (useSearchResults_effect s) = s_lang s
  /\ s_query (useSearchResults_effect s) = s_query s
  /\ s_timer (useSearchResults_effect s) = s_timer s
  /\ s_debounced (useSearchResults_effect s) = s_debounced s.
Proof.
  unfold useSearchResults_effect, fetchSparql.
  destruct (String.length (trim (s_debounced s)) <? 2); [repeat split|].
  destruct (buildQuery _ _ _); repeat split.
Qed.

Lemma frame_useSearchResults s :
  s_endpoint (useSearchResults s) = s_endpoint s
  /\ s_predicate (useSearchResults s) = s_predicate s
  /\ s_lang (useSearchResults s) = s_lang s
  /\ s_query (useSearchResults s) = s_query s
  /\ s_timer (useSearchResults s) = s_timer s
  /\ s_debounced (useSearchResults s) = s_debounced s.
Proof.
  unfold useSearchResults.
  destruct (frame_effect (useSearchResults_cleanup s))
    as (-> & -> & -> & -> & -> & ->).
  destruct (frame_cleanup s) as (-> & -> & -> & -> & -> & -> & _).
  repeat split.
Qed.

Lemma s_predicate_step s ev : s_predicate (step s ev) = s_predicate s.
Proof.
  destruct ev as [now text| |l|e|i o]; cbn [step].
  - now destruct (String.eqb text (s_query s)).
  - destruct (s_timer s) as [[due v]|]; [|reflexivity].
    destruct (String.eqb v (s_debounced s)); [reflexivity|].
    now destruct (frame_useSearchResults (setDebounced (setTimer s None) v))
      as (_ & -> & _).
  - destruct (String.eqb l (s_lang s)); [reflexivity|].
    now destruct (frame_useSearchResults (setLang s l)) as (_ & -> & _).
  - destruct (String.eqb e (s_endpoint s)); [reflexivity|].
    now destruct (frame_useSearchResults (setEndpoint s e)) as (_ & -> & _).
  - destruct (s_requests s !! i) as [r|]; [|reflexivity].
    now destruct (rq_settled r).
Qed.

Lemma s_predicate_run evs : forall s, s_predicate (run s evs) = s_predicate s.
Proof.
  induction evs as [|ev evs IH]; intros s; [reflexivity|].
  cbn [run foldl]. change (foldl step ?x evs) with (run x evs).
  now rewrite IH, s_predicate_step.
Qed.

Lemma DebounceInv_step s ev : DebounceInv s -> DebounceInv (step s ev).
Proof.
  intros [Ht Hn]. destruct ev as [now text| |l|e|i o]; cbn [step].
  - destruct (String.eqb text (s_query s)); [now split|].
    split; cbn [useDebounce s_timer s_query s_debounced setInput].
    + now intros due v [= _ <-].
    + discriminate.
  - destruct (s_timer s) as [[due v]|] eqn:Et;
      [|split; [intros due v H; rewrite Et in H; discriminate
               |intros _; now apply Hn]].
    specialize (Ht due v eq_refl).
    destruct (String.eqb v (s_debounced s)) eqn:Ev.
    + apply String.eqb_eq in Ev. split; [discriminate|].
      intros _. cbn. congruence.
    + destruct (frame_useSearchResults (setDebounced (setTimer s None) v))
        as (_ & _ & _ & Hq & Htm & Hd).
      split; rewrite ?Htm, ?Hd, ?Hq; [discriminate|].
      intros _. cbn. exact Ht.
  - destruct (String.eqb l (s_lang s)); [now split|].
    destruct (frame_useSearchResults (setLang s l))
      as (_ & _ & _ & Hq & Htm & Hd).
    split; rewrite ?Htm, ?Hd, ?Hq; assumption.
  - destruct (String.eqb e (s_endpoint s)); [now split|].
    destruct (frame_useSearchResults (setEndpoint s e))
      as (_ & _ & _ & Hq & Htm & Hd).
    split; rewrite ?Htm, ?Hd, ?Hq; assumption.
  - destruct (s_requests s !! i) as [r|]; [|now split].
    destruct (rq_settled r); now split.
Qed.

Lemma DebounceInv_run evs : forall s, DebounceInv s -> DebounceInv (run s evs).
Proof.
  induction evs as [|ev evs IH]; intros s H; [exact H|].
  apply IH. now apply DebounceInv_step.
Qed.

(** X11. In every reachable state of a panel, a pending timeout of
    [useDebounce] holds the text of the search box, and when no timeout
    is pending the debounced text is the text of the search box. *)
Theorem debounced_catches_up (endpoint predicate : string) (evs : list Event) :
  let s := run (mount endpoint predicate) evs in
  (forall due v, s_timer s = Some (due, v) -> v = s_query s)
  /\ (s_timer s = None -> s_debounced s = s_query s).
Proof.
  apply DebounceInv_run. split.
  - now intros due v [= _ <-].
  - discriminate.
Qed.

Lemma debounced_catches_up_witness :
  s_debounced searchingIbu = s_query searchingIbu.
Proof.
  apply (proj2 (debounced_catches_up "/graphdb/repositories/dakikg"
                  "rdfs:label" [InputChange 0 "ibu"; TimerFire])).
  reflexivity.
Defined.

(** X12. In every reachable state of a panel at most one request has a
    signal that is not aborted, and it is the latest request. *)
Theorem one_live_request (endpoint predicate : string) (evs : list Event) :
  let s := run (mount endpoint predicate) evs in
  forall i j ri rj,
    s_requests s !! i = Some ri -> s_requests s !! j = Some rj ->
    rq_aborted ri = false -> rq_aborted rj = false ->
    i = j /\ S i = length (s_requests s).
Proof.
  intros s i j ri rj Hi Hj Hai Haj.
  destruct (reachable_inv endpoint predicate evs) as [[Hothers Hcur] _].
  fold s in Hothers, Hcur.
  assert (Hci : s_controller s = Some i).
  { destruct (decide (s_controller s = Some i)) as [H|H]; [exact H|].
    rewrite (Hothers i ri Hi H) in Hai. discriminate. }
  assert (Hcj : s_controller s = Some j).
  { destruct (decide (s_controller s = Some j)) as [H|H]; [exact H|].
    rewrite (Hothers j rj Hj H) in Haj. discriminate. }
  split; [congruence|]. now destruct (Hcur i Hci).
Qed.

Lemma one_live_request_witness :
  1 = 1
  /\ 2 = length (s_requests
                   (run (mount "/graphdb/repositories/dakikg" "rdfs:label")
                        overlappingSession)).
Proof.
  apply (one_live_request "/graphdb/repositories/dakikg" "rdfs:label"
           overlappingSession 1 1
           {| rq_endpoint := "/graphdb/repositories/dakikg";
              rq_body := filledTemplate "ibup" "rdfs:label" "en";
              rq_aborted := false; rq_settled := false |}
           {| rq_endpoint := "/graphdb/repositories/dakikg";
              rq_body := filledTemplate "ibup" "rdfs:label" "en";
              rq_aborted := false; rq_settled := false |});
    vm_compute; reflexivity.
Defined.

Lemma FreshInv_useSearchResults s : FreshInv (useSearchResults s).
Proof.
  unfold useSearchResults.
  destruct (frame_cleanup s) as (He & Hp & Hl & _ & _ & Hd & _).
  set (s0 := useSearchResults_cleanup s) in *.
  unfold FreshInv, useSearchResults_effect, fetchSparql.
  destruct (String.length (trim (s_debounced s0)) <? 2) eqn:Elen;
    [intros k r; discriminate|].
  apply Nat.ltb_ge in Elen.
  destruct (buildQuery _ _ _) as [sparql|err] eqn:Eb;
    cbn [s_controller s_requests s_endpoint s_debounced s_predicate s_lang
         setSearch]; [|intros k r; discriminate].
  intros k r [= <-] Hk.
  rewrite lookup_app_r, Nat.sub_diag in Hk by lia.
  injection Hk as <-. cbn [rq_endpoint rq_body]. now repeat split.
Qed.

Lemma FreshInv_step s ev : FreshInv s -> FreshInv (step s ev).
Proof.
  intros H. destruct ev as [now text| |l|e|i o]; cbn [step].
  - now destruct (String.eqb text (s_query s)).
  - destruct (s_timer s) as [[due v]|]; [|exact H].
    destruct (String.eqb v (s_debounced s)); [exact H|].
    apply FreshInv_useSearchResults.
  - destruct (String.eqb l (s_lang s)); [exact H|].
    apply FreshInv_useSearchResults.
  - destruct (String.eqb e (s_endpoint s)); [exact H|].
    apply FreshInv_useSearchResults.
  - destruct (s_requests s !! i) as [r|] eqn:Ei; [|exact H].
    destruct (rq_settled r); [exact H|].
    intros k r'. cbn [s_controller s_requests s_endpoint s_debounced
                       s_predicate s_lang setSearch].
    intros Hc Hk. destruct (decide (i = k)) as [->|Hne].
    + rewrite list_lookup_insert_eq in Hk by (eapply lookup_lt_Some; eauto).
      injection Hk as <-. now apply (H k r).
    + rewrite list_lookup_insert_ne in Hk by exact Hne. now apply (H k r').
Qed.

Lemma FreshInv_run evs : forall s, FreshInv s -> FreshInv (run s evs).
Proof.
  induction evs as [|ev evs IH]; intros s H; [exact H|].
  apply IH. now apply FreshInv_step.
Qed.

(** X13. In every reachable state of a panel, the request that the
    current effect controls was sent to the current endpoint and carries
    the query that [buildQuery] gives for the current debounced text
    (trimmed, of length at least 2), predicate and language. *)
Theorem controlled_request_is_current (endpoint predicate : string)
    (evs : list Event) :
  let s := run (mount endpoint predicate) evs in
  forall k r, s_controller s = Some k -> s_requests s !! k = Some r ->
    rq_endpoint r = s_endpoint s
    /\ 2 <= String.length (trim (s_debounced s))
    /\ buildQuery (trim (s_debounced s)) (s_predicate s) (LangStr (s_lang s))
       = Return (rq_body r).
Proof.
  apply FreshInv_run. intros k r Hc. discriminate.
Qed.

Lemma controlled_request_is_current_witness :
  buildQuery (trim (s_debounced searchingIbu)) (s_predicate searchingIbu)
    (LangStr (s_lang searchingIbu))
  = Return (filledTemplate "ibu" "rdfs:label" "en").
Proof.
  apply (controlled_request_is_current "/graphdb/repositories/dakikg"
           "rdfs:label" [InputChange 0 "ibu"; TimerFire] 0
           {| rq_endpoint := "/graphdb/repositories/dakikg";
              rq_body := filledTemplate "ibu" "rdfs:label" "en";
              rq_aborted := false; rq_settled := false |});
    vm_compute; reflexivity.
Defined.

Lemma buildQuery_throw_name query predicate lang e :
  buildQuery query predicate lang = Throw e -> err_name e = "Error".
Proof.
  unfold buildQuery.
  destruct (negb (includes LANG_OPTIONS (normalizeLang lang)));
    [now intros [= <-]|].
  destruct (negb (includes (Object_values PREDICATES) predicate));
    [now intros [= <-]|discriminate].
Qed.

Lemma LoadingInv_useSearchResults s : LoadingInv (useSearchResults s).
Proof.
  unfold useSearchResults.
  set (s0 := useSearchResults_cleanup s).
  unfold LoadingInv, useSearchResults_effect, fetchSparql.
  destruct (String.length (trim (s_debounced s0)) <? 2);
    [split; [discriminate|intros k r; discriminate]|].
  destruct (buildQuery _ _ _) as [sparql|err] eqn:Eb;
    cbn [s_controller s_requests s_state setSearch applySettlement].
  - split; [intros _; now eexists|reflexivity].
  - split; [|intros k r; discriminate].
    unfold onRejected. rewrite (buildQuery_throw_name _ _ _ _ Eb).
    discriminate.
Qed.

Lemma loading_applySettlement c st :
  loading (applySettlement c st) = true -> loading st = true.
Proof.
  destruct c as [[msg|rows]|e]; cbn [applySettlement onFulfilled];
    try discriminate.
  unfold onRejected. destruct (String.eqb (err_name e) "AbortError");
    [trivial|discriminate].
Qed.

Lemma LoadingInv_step s ev :
  RequestsInv s -> LoadingInv s -> LoadingInv (step s ev).
Proof.
  intros [Hothers Hcur] H. destruct ev as [now text| |l|e|i o]; cbn [step].
  - now destruct (String.eqb text (s_query s)).
  - destruct (s_timer s) as [[due v]|]; [|exact H].
    destruct (String.eqb v (s_debounced s)); [exact H|].
    apply LoadingInv_useSearchResults.
  - destruct (String.eqb l (s_lang s)); [exact H|].
    apply LoadingInv_useSearchResults.
  - destruct (String.eqb e (s_endpoint s)); [exact H|].
    apply LoadingInv_useSearchResults.
  - destruct (s_requests s !! i) as [r|] eqn:Ei; [|exact H].
    destruct (rq_settled r) eqn:Es; [exact H|].
    destruct H as [H1 H2].
    split; cbn [s_controller s_requests s_state setSearch].
    + intros Hl. apply H1. now apply loading_applySettlement in Hl.
    + intros k r' Hc Hk Hs'.
      destruct (decide (i = k)) as [->|Hne].
      * rewrite list_lookup_insert_eq in Hk by (eapply lookup_lt_Some; eauto).
        injection Hk as <-. discriminate.
      * rewrite list_lookup_insert_ne in Hk by exact Hne.
        rewrite (Hothers i r Ei) by congruence.
        cbn [applySettlement]. rewrite onRejected_abort by reflexivity.
        now apply (H2 k r').
Qed.

Lemma LoadingInv_run evs : forall s,
  RequestsInv s -> IdleInv s -> LoadingInv s -> LoadingInv (run s evs).
Proof.
  induction evs as [|ev evs IH]; intros s Hr Hi Hl; [exact Hl|].
  destruct (step_inv s ev Hr Hi) as [Hr' Hi'].
  apply IH; [exact Hr'|exact Hi'|]. now apply LoadingInv_step.
Qed.

(** X14. In every reachable state of a panel, the state shows loading
    only while the current effect controls a request, and it does show
    loading as long as that request has not settled. *)
Theorem loading_tracks_request (endpoint predicate : string)
    (evs : list Event) :
  let s := run (mount endpoint predicate) evs in
  (loading (s_state s) = true -> exists k, s_controller s = Some k)
  /\ (forall k r, s_controller s = Some k -> s_requests s !! k = Some r ->
        rq_settled r = false -> loading (s_state s) = true).
Proof.
  destruct (mount_inv endpoint predicate) as [Hr Hi].
  apply (LoadingInv_run evs _ Hr Hi).
  split; [discriminate|]. intros k r Hc. discriminate.
Qed.

Lemma loading_tracks_request_witness :
  loading (s_state searchingIbu) = true.
Proof.
  eapply (proj2 (loading_tracks_request "/graphdb/repositories/dakikg"
                   "rdfs:label" [InputChange 0 "ibu"; TimerFire]) 0);
    vm_compute; reflexivity.
Defined.

Lemma BodiesInv_useSearchResults s : BodiesInv s -> BodiesInv (useSearchResults s).
Proof.
  intros H.
  assert (H0 : BodiesInv (useSearchResults_cleanup s)).
  { intros i r. destruct (frame_cleanup s) as (_ & -> & _).
    unfold useSearchResults_cleanup.
    destruct (s_controller s) as [c|]; [|apply H].
    cbn [s_requests setSearch]. intros Hi.
    destruct (decide (c = i)) as [->|Hne].
    - rewrite list_lookup_alter_eq in Hi.
      destruct (s_requests s !! i) as [r0|] eqn:E; [|discriminate].
      injection Hi as <-. now apply (H i r0).
    - rewrite list_lookup_alter_ne in Hi by exact Hne. now apply (H i r). }
  unfold useSearchResults.
  set (s0 := useSearchResults_cleanup s) in *.
  intros i r. destruct (frame_effect s0) as (_ & -> & _).
  unfold useSearchResults_effect, fetchSparql.
  destruct (String.length (trim (s_debounced s0)) <? 2) eqn:Elen; [apply H0|].
  apply Nat.ltb_ge in Elen.
  destruct (buildQuery _ _ _) as [sparql|err] eqn:Eb;
    cbn [s_requests setSearch]; [|apply H0].
  intros Hi. apply lookup_app_Some in Hi as [Hi|[_ Hi]]; [now apply (H0 i r)|].
  apply list_lookup_singleton_Some in Hi as [_ <-].
  exists (s_debounced s0), (s_lang s0). now split.
Qed.

Lemma BodiesInv_step s ev : BodiesInv s -> BodiesInv (step s ev).
Proof.
  intros H. destruct ev as [now text| |l|e|i o]; cbn [step].
  - now destruct (String.eqb text (s_query s)).
  - destruct (s_timer s) as [[due v]|]; [|exact H].
    destruct (String.eqb v (s_debounced s)); [exact H|].
    now apply BodiesInv_useSearchResults.
  - destruct (String.eqb l (s_lang s)); [exact H|].
    now apply BodiesInv_useSearchResults.
  - destruct (String.eqb e (s_endpoint s)); [exact H|].
    now apply BodiesInv_useSearchResults.
  - destruct (s_requests s !! i) as [r|] eqn:Ei; [|exact H].
    destruct (rq_settled r); [exact H|].
    intros k r'. cbn [s_requests s_predicate setSearch]. intros Hk.
    destruct (decide (i = k)) as [->|Hne].
    + rewrite list_lookup_insert_eq in Hk by (eapply lookup_lt_Some; eauto).
      injection Hk as <-. now apply (H k r).
    + rewrite list_lookup_insert_ne in Hk by exact Hne. now apply (H k r').
Qed.

Lemma BodiesInv_run evs : forall s, BodiesInv s -> BodiesInv (run s evs).
Proof.
  induction evs as [|ev evs IH]; intros s H; [exact H|].
  apply IH. now apply BodiesInv_step.
Qed.

Lemma buildQuery_return_valid query predicate lang sparql :
  buildQuery query predicate lang = Return sparql ->
  langAllowed lang /\ predicateRecognized predicate.
Proof.
  unfold buildQuery.
  destruct (includes LANG_OPTIONS (normalizeLang lang)) eqn:El;
    [|discriminate].
  destruct (includes (Object_values PREDICATES) predicate) eqn:Ep;
    [|discriminate].
  intros _. split.
  - now apply includes_LANG_OPTIONS.
  - now apply includes_PREDICATES.
Qed.

(** X15. Every request that a panel has ever issued carries a query that
    [buildQuery] returned for a trimmed text of at least two characters,
    the predicate of the panel and a language that it accepts: no call of
    [fetch] is made for a shorter text, for a rejected language or with a
    predicate that is not recognized. *)
Theorem requests_are_valid_queries (endpoint predicate : string)
    (evs : list Event) :
  let s := run (mount endpoint predicate) evs in
  forall i r, s_requests s !! i = Some r ->
    predicateRecognized predicate
    /\ exists text l,
         2 <= String.length (trim text)
         /\ langAllowed (LangStr l)
         /\ buildQuery (trim text) predicate (LangStr l) = Return (rq_body r).
Proof.
  intros s i r Hi.
  assert (H : BodiesInv s).
  { apply BodiesInv_run. intros k r' Hk. discriminate. }
  destruct (H i r Hi) as (text & l & Hlen & Hb).
  unfold s in Hb. rewrite s_predicate_run in Hb. cbn [s_predicate mount] in Hb.
  destruct (buildQuery_return_valid _ _ _ _ Hb) as [Hl Hp].
  split; [exact Hp|]. now exists text, l.
Qed.

Lemma requests_are_valid_queries_witness :
  exists text l,
    2 <= String.length (trim text)
    /\ langAllowed (LangStr l)
    /\ buildQuery (trim text) "rdfs:label" (LangStr l)
       = Return (filledTemplate "ibu" "rdfs:label" "en").
Proof.
  apply (requests_are_valid_queries "/graphdb/repositories/dakikg"
           "rdfs:label" [InputChange 0 "ibu"; TimerFire] 0
           {| rq_endpoint := "/graphdb/repositories/dakikg";
              rq_body := filledTemplate "ibu" "rdfs:label" "en";
              rq_aborted := false; rq_settled := false |}).
  vm_compute. reflexivity.
Defined.

(** ** More on the reactions of [useSearchResults] *)

Lemma cleanup_aborts_controlled s k r :
  s_controller s = Some k -> s_requests s !! k = Some r ->
  s_requests (useSearchResults_cleanup s) !! k = Some (abortRequest r).
Proof.
  intros Hc Hk. unfold useSearchResults_cleanup. rewrite Hc.
  cbn [s_requests setSearch]. now rewrite list_lookup_alter_eq, Hk.
Qed.

(** X16. When the language of a panel changes to one that [buildQuery]
    rejects while the debounced text has trimmed length at least 2, no
    call of [fetch] is made: the outcome is at once the error with the
    language message, nothing is controlled any more, and the request
    that was controlled has its signal aborted. *)
Theorem unsupported_language_shown (s : Stream) (l : string) :
  l <> s_lang s ->
  ~ langAllowed (LangStr l) ->
  2 <= String.length (trim (s_debounced s)) ->
  let s' := step s (LangChange l) in
  s_state s' = {| loading := false;
                  error := Some (languageMessage (LangStr l));
                  info := None; results := [] |}
  /\ issuedSince s s' = []
  /\ s_controller s' = None
  /\ (forall k r, s_controller s = Some k -> s_requests s !! k = Some r ->
        s_requests s' !! k = Some (abortRequest r)).
Proof.
  intros Hne Hbad Hlen s'. unfold s'. cbn [step].
  apply String.eqb_neq in Hne. rewrite Hne.
  unfold useSearchResults.
  set (s0 := useSearchResults_cleanup (setLang s l)).
  assert (Hf := frame_cleanup (setLang s l)). fold s0 in Hf.
  destruct Hf as (He & Hp & Hl & _ & _ & Hd & _).
  assert (Heff : useSearchResults_effect s0
                 = setSearch s0
                     {| loading := false;
                        error := Some (languageMessage (LangStr l));
                        info := None; results := [] |}
                     (s_requests s0) None).
  { unfold useSearchResults_effect, fetchSparql. rewrite Hd, Hp, Hl.
    cbn [s_debounced s_predicate s_lang setLang].
    apply Nat.ltb_ge in Hlen. rewrite Hlen.
    now rewrite (buildQuery_bad_lang _ _ _ Hbad). }
  rewrite Heff. cbn [s_state s_requests s_controller setSearch].
  split; [reflexivity|]. split; [|split; [reflexivity|]].
  - unfold issuedSince. apply drop_ge.
    cbn [s_requests setSearch]. unfold s0.
    rewrite (length_useSearchResults_cleanup (setLang s l)). reflexivity.
  - intros k r Hc Hk. now apply (cleanup_aborts_controlled (setLang s l)).
Qed.

Lemma unsupported_language_shown_witness :
  s_state (step searchingIbu (LangChange "de"))
  = {| loading := false;
       error := Some "Unsupported language: de. Expected en or nl.";
       info := None; results := [] |}.
Proof.
  apply (unsupported_language_shown searchingIbu "de").
  - discriminate.
  - intros [H|H]; vm_compute in H; discriminate.
  - vm_compute. lia.
Defined.

Lemma useSearchResults_long s sparql :
  2 <= String.length (trim (s_debounced s)) ->
  buildQuery (trim (s_debounced s)) (s_predicate s) (LangStr (s_lang s))
    = Return sparql ->
  s_state (useSearchResults s) = loadingUpdate (s_state s)
  /\ s_requests (useSearchResults s)
     = s_requests (useSearchResults_cleanup s)
       ++ [{| rq_endpoint := s_endpoint s; rq_body := sparql;
              rq_aborted := false; rq_settled := false |}]
  /\ s_controller (useSearchResults s) = Some (length (s_requests s)).
Proof.
  intros Hlen Hb. unfold useSearchResults.
  destruct (frame_cleanup s) as (He & Hp & Hl & _ & _ & Hd & Hs).
  unfold useSearchResults_effect, fetchSparql. rewrite Hd, Hp, Hl, He, Hs.
  apply Nat.ltb_ge in Hlen. rewrite Hlen, Hb.
  cbn [s_state s_requests s_controller setSearch].
  now rewrite length_useSearchResults_cleanup.
Qed.

(** X17. When the language of a panel changes to another one that
    [buildQuery] accepts while the debounced text has trimmed length at
    least 2, the search runs again at once, without any delay: the step
    issues exactly one call of [fetch], for the debounced text in the new
    language; the state shows loading and keeps the previous rows; the
    request that was controlled has its signal aborted. *)
Theorem language_change_requeries (s : Stream) (l sparql : string) :
  l <> s_lang s ->
  2 <= String.length (trim (s_debounced s)) ->
  buildQuery (trim (s_debounced s)) (s_predicate s) (LangStr l) = Return sparql ->
  let s' := step s (LangChange l) in
  issuedSince s s'
    = [{| rq_endpoint := s_endpoint s; rq_body := sparql;
          rq_aborted := false; rq_settled := false |}]
  /\ s_state s' = {| loading := true; error := None; info := None;
                     results := results (s_state s) |}
  /\ s_controller s' = Some (length (s_requests s))
  /\ (forall k r, s_controller s = Some k -> s_requests s !! k = Some r ->
        s_requests s' !! k = Some (abortRequest r)).
Proof.
  intros Hne Hlen Hb s'. unfold s'. cbn [step].
  apply String.eqb_neq in Hne. rewrite Hne.
  destruct (useSearchResults_long (setLang s l) sparql Hlen Hb)
    as (Hst & Hrq & Hc).
  split; [|split; [exact Hst|split; [exact Hc|]]].
  - unfold issuedSince. rewrite Hrq.
    change (length (s_requests s)) with (length (s_requests (setLang s l))).
    rewrite <- (length_useSearchResults_cleanup (setLang s l)).
    now rewrite drop_app_length.
  - intros k r Hk Hr. rewrite Hrq.
    apply lookup_app_l_Some.
    now apply (cleanup_aborts_controlled (setLang s l)).
Qed.

Lemma language_change_requeries_witness :
  issuedSince searchingIbu (step searchingIbu (LangChange "nl"))
  = [{| rq_endpoint := "/graphdb/repositories/dakikg";
        rq_body := filledTemplate "ibu" "rdfs:label" "nl";
        rq_aborted := false; rq_settled := false |}].
Proof.
  apply (language_change_requeries searchingIbu "nl"
           (filledTemplate "ibu" "rdfs:label" "nl")).
  - discriminate.
  - vm_compute. lia.
  - vm_compute. reflexivity.
Defined.

(** ** The two panels of [App] *)

Lemma s_lang_step s ev :
  s_lang (step s ev) = match ev with LangChange l => l | _ => s_lang s end.
Proof.
  destruct ev as [now text| |l|e|i o]; cbn [step].
  - now destruct (String.eqb text (s_query s)).
  - destruct (s_timer s) as [[due v]|]; [|reflexivity].
    destruct (String.eqb v (s_debounced s)); [reflexivity|].
    now destruct (frame_useSearchResults (setDebounced (setTimer s None) v))
      as (_ & _ & -> & _).
  - destruct (String.eqb l (s_lang s)) eqn:E.
    + now apply String.eqb_eq in E.
    + now destruct (frame_useSearchResults (setLang s l)) as (_ & _ & -> & _).
  - destruct (String.eqb e (s_endpoint s)); [reflexivity|].
    now destruct (frame_useSearchResults (setEndpoint s e)) as (_ & _ & -> & _).
  - destruct (s_requests s !! i) as [r|]; [|reflexivity].
    now destruct (rq_settled r).
Qed.

Lemma s_endpoint_step s ev :
  s_endpoint (step s ev)
  = match ev with EndpointChange e => e | _ => s_endpoint s end.
Proof.
  destruct ev as [now text| |l|e|i o]; cbn [step].
  - now destruct (String.eqb text (s_query s)).
  - destruct (s_timer s) as [[due v]|]; [|reflexivity].
    destruct (String.eqb v (s_debounced s)); [reflexivity|].
    now destruct (frame_useSearchResults (setDebounced (setTimer s None) v))
      as (-> & _).
  - destruct (String.eqb l (s_lang s)); [reflexivity|].
    now destruct (frame_useSearchResults (setLang s l)) as (-> & _).
  - destruct (String.eqb e (s_endpoint s)) eqn:E.
    + now apply String.eqb_eq in E.
    + now destruct (frame_useSearchResults (setEndpoint s e)) as (-> & _).
  - destruct (s_requests s !! i) as [r|]; [|reflexivity].
    now destruct (rq_settled r).
Qed.

Lemma panelOf_withPanel_same a p s : panelOf (withPanel a p s) p = s.
Proof. now destruct p. Qed.

Lemma panelOf_withPanel_other a p s q :
  p <> q -> panelOf (withPanel a p s) q = panelOf a q.
Proof. intros H. destruct p, q; try reflexivity; now destruct H. Qed.

(** Every event of [App] leaves a panel as it is or is one event of that
    panel. *)
Lemma appStep_panel a ev p :
  panelOf (appStep a ev) p = panelOf a p
  \/ exists pev, panelOf (appStep a ev) p = step (panelOf a p) pev
       /\ match pev with
          | LangChange l => In l LANG_OPTIONS
          | EndpointChange e => ev = EndpointInput e
          | _ => True
          end.
Proof.
  destruct ev as [e|q choice|q now text|q|q i o]; cbn [appStep].
  - right. exists (EndpointChange e). now destruct p.
  - destruct (LANG_OPTIONS !! choice) as [l|] eqn:E; [|now left].
    destruct p, q; try (now left); right; exists (LangChange l);
      (split; [reflexivity|]);
      destruct choice as [|[|choice]]; cbn in E; try discriminate;
      injection E as <-; cbn; auto.
  - destruct p, q; try (now left); right;
      exists (InputChange now text); now split.
  - destruct p, q; try (now left); right; exists TimerFire; now split.
  - destruct p, q; try (now left); right; exists (FetchSettle i o); now split.
Qed.

Lemma run_snoc s evs ev : run s (evs ++ [ev]) = step (run s evs) ev.
Proof. unfold run. now rewrite foldl_app. Qed.

Lemma app_panel_reachable_from evs p m : forall a,
  (exists pevs, panelOf a p = run m pevs) ->
  exists pevs, panelOf (appRun a evs) p = run m pevs.
Proof.
  induction evs as [|ev evs IH]; intros a H; [exact H|].
  cbn [appRun foldl]. change (foldl appStep ?x evs) with (appRun x evs).
  apply IH. destruct H as [pevs H].
  destruct (appStep_panel a ev p) as [->|(pev & -> & _)].
  - now exists pevs.
  - exists (pevs ++ [pev]). now rewrite run_snoc, H.
Qed.

(** Every panel of a reachable state of [App] is a reachable state of
    that panel on its own. *)
Lemma app_panel_reachable env evs p :
  exists pevs,
    panelOf (appRun (App env) evs) p
    = run (mount (DEFAULT_ENDPOINT env) (predicateOf p)) pevs.
Proof.
  apply app_panel_reachable_from. exists []. now destruct p.
Qed.

Lemma AppInv_step a ev : AppInv a -> AppInv (appStep a ev).
Proof.
  intros H.
  assert (Hend : forall p,
            s_endpoint (panelOf (appStep a ev) p)
            = match ev with
              | EndpointInput e => e
              | _ => s_endpoint (drugPanel a)
              end).
  { intros p. destruct (H AdePanel) as (_ & _ & Ha). cbn [panelOf] in Ha.
    destruct ev as [e|q choice|q now text|q|q i o]; cbn [appStep].
    - destruct p; cbn [panelOf drugPanel adePanel]; now rewrite s_endpoint_step.
    - destruct (LANG_OPTIONS !! choice) as [l|]; [|now destruct p].
      destruct p, q; cbn [panelOf withPanel drugPanel adePanel];
        now rewrite ?s_endpoint_step.
    - destruct p, q; cbn [panelOf withPanel drugPanel adePanel];
        now rewrite ?s_endpoint_step.
    - destruct p, q; cbn [panelOf withPanel drugPanel adePanel];
        now rewrite ?s_endpoint_step.
    - destruct p, q; cbn [panelOf withPanel drugPanel adePanel];
        now rewrite ?s_endpoint_step. }
  intros p. split; [|split].
  - destruct (H p) as (Hp & _).
    destruct (appStep_panel a ev p) as [->|(pev & -> & _)]; [exact Hp|].
    now rewrite s_predicate_step.
  - destruct (H p) as (_ & Hl & _).
    destruct (appStep_panel a ev p) as [->|(pev & -> & Hpev)]; [exact Hl|].
    rewrite s_lang_step. now destruct pev.
  - rewrite (Hend p).
    change (drugPanel (appStep a ev)) with (panelOf (appStep a ev) DrugPanel).
    now rewrite (Hend DrugPanel).
Qed.

Lemma AppInv_run evs : forall a, AppInv a -> AppInv (appRun a evs).
Proof.
  induction evs as [|ev evs IH]; intros a H; [exact H|].
  apply IH. now apply AppInv_step.
Qed.

Lemma AppInv_App env : AppInv (App env).
Proof. intros p. destruct p; cbn; auto. Qed.

Lemma options_allowed l : In l LANG_OPTIONS -> langAllowed (LangStr l).
Proof.
  intros [<-|[<-|[]]]; [left|right]; reflexivity.
Qed.

Lemma predicateOf_recognized p : predicateRecognized (predicateOf p).
Proof. destruct p; [left|right]; reflexivity. Qed.

(** X18. In [App] the validation of [buildQuery] never fails: in every
    reachable state the language of each panel is an option of its
    select and the predicate is the one of the panel, so [buildQuery]
    returns a query for every search text. *)
Theorem App_queries_always_build (env : option string)
    (evs : list AppEvent) (p : Panel) (query : string) :
  let s := panelOf (appRun (App env) evs) p in
  s_predicate s = predicateOf p
  /\ In (s_lang s) LANG_OPTIONS
  /\ exists sparql,
       buildQuery query (s_predicate s) (LangStr (s_lang s)) = Return sparql.
Proof.
  intros s.
  destruct (AppInv_run evs _ (AppInv_App env) p) as (Hp & Hl & _).
  fold s in Hp, Hl. split; [exact Hp|]. split; [exact Hl|].
  eexists. apply buildQuery_valid.
  - now apply options_allowed.
  - rewrite Hp. apply predicateOf_recognized.
Qed.

Lemma App_panel_builds env evs p query :
  exists sparql,
    buildQuery query (s_predicate (panelOf (appRun (App env) evs) p))
      (LangStr (s_lang (panelOf (appRun (App env) evs) p)))
    = Return sparql.
Proof.
  destruct (AppInv_run evs _ (AppInv_App env) p) as (Hp & Hl & _).
  eexists. apply buildQuery_valid.
  - now apply options_allowed.
  - rewrite Hp. apply predicateOf_recognized.
Qed.

(** X19. In [App], when the timeout of a panel runs with a text that
    differs from the debounced one and has trimmed length at least 2, the
    panel issues exactly one call of [fetch], to the endpoint and for
    that text trimmed, its state shows loading with the previous rows
    kept, and the other panel is left as it is. *)
Theorem App_timeout_starts_search (env : option string) (evs : list AppEvent)
    (p : Panel) (due : nat) (v : string) :
  let a := appRun (App env) evs in
  let s := panelOf a p in
  s_timer s = Some (due, v) ->
  v <> s_debounced s ->
  2 <= String.length (trim v) ->
  let a' := appStep a (Timeout p) in
  let s' := panelOf a' p in
  (exists sparql,
     buildQuery (trim v) (predicateOf p) (LangStr (s_lang s)) = Return sparql
     /\ issuedSince s s'
        = [{| rq_endpoint := s_endpoint s; rq_body := sparql;
              rq_aborted := false; rq_settled := false |}])
  /\ s_state s' = {| loading := true; error := None; info := None;
                     results := results (s_state s) |}
  /\ s_debounced s' = v
  /\ (forall q, q <> p -> panelOf a' q = panelOf a q).
Proof.
  intros a s Ht Hne Hlen a' s'.
  destruct (App_panel_builds env evs p (trim v)) as [sparql Hb].
  fold a in Hb. fold s in Hb.
  destruct (AppInv_run evs _ (AppInv_App env) p) as (Hp & _).
  fold a in Hp. fold s in Hp.
  assert (Hs' : s' = useSearchResults (setDebounced (setTimer s None) v)).
  { unfold s', a'. cbn [appStep]. rewrite panelOf_withPanel_same.
    fold s. cbn [step]. rewrite Ht.
    apply String.eqb_neq in Hne. now rewrite Hne. }
  destruct (useSearchResults_long (setDebounced (setTimer s None) v) sparql
              Hlen Hb) as (Hst & Hrq & Hc).
  split; [|split; [|split]].
  - exists sparql. split; [now rewrite <- Hp|].
    rewrite Hs'. unfold issuedSince. rewrite Hrq.
    change (length (s_requests s))
      with (length (s_requests (setDebounced (setTimer s None) v))).
    rewrite <- (length_useSearchResults_cleanup
                  (setDebounced (setTimer s None) v)).
    now rewrite drop_app_length.
  - rewrite Hs'. exact Hst.
  - rewrite Hs'.
    now destruct (frame_useSearchResults (setDebounced (setTimer s None) v))
      as (_ & _ & _ & _ & _ & ->).
  - intros q Hq. unfold a'. cbn [appStep].
    apply panelOf_withPanel_other. congruence.
Qed.

Lemma App_timeout_starts_search_witness :
  let a := appRun (App None) [SearchInput AdePanel 0 "renal"] in
  exists sparql,
    issuedSince (panelOf a AdePanel) (panelOf (appStep a (Timeout AdePanel)) AdePanel)
    = [{| rq_endpoint := "/graphdb/repositories/dakikg"; rq_body := sparql;
          rq_aborted := false; rq_settled := false |}].
Proof.
  intros a.
  destruct (App_timeout_starts_search None [SearchInput AdePanel 0 "renal"]
              AdePanel 200 "renal") as ((sparql & _ & H) & _).
  - reflexivity.
  - discriminate.
  - vm_compute. lia.
  - exists sparql. exact H.
Defined.

(** X20. In [App], every change of the endpoint field makes both panels
    search again at once, without any delay: a panel whose debounced text
    has trimmed length at least 2 issues exactly one call of [fetch] to
    the new endpoint and shows loading, and a panel whose debounced text
    is shorter issues none and stays cleared. *)
Theorem App_endpoint_edit (env : option string) (evs : list AppEvent)
    (e : string) (p : Panel) :
  let a := appRun (App env) evs in
  let s := panelOf a p in
  let s' := panelOf (appStep a (EndpointInput e)) p in
  e <> s_endpoint s ->
  s_endpoint s' = e
  /\ (String.length (trim (s_debounced s)) < 2 ->
      issuedSince s s' = [] /\ s_state s' = clearUpdate initialState)
  /\ (2 <= String.length (trim (s_debounced s)) ->
      loading (s_state s') = true
      /\ exists sparql,
           buildQuery (trim (s_debounced s)) (predicateOf p)
             (LangStr (s_lang s)) = Return sparql
           /\ issuedSince s s'
              = [{| rq_endpoint := e; rq_body := sparql;
                    rq_aborted := false; rq_settled := false |}]).
Proof.
  intros a s s' Hne.
  assert (Hs' : s' = useSearchResults (setEndpoint s e)).
  { unfold s'. cbn [appStep].
    replace (panelOf {| drugPanel := step (drugPanel a) (EndpointChange e);
                        adePanel := step (adePanel a) (EndpointChange e) |} p)
      with (step s (EndpointChange e)) by (unfold s; now destruct p).
    cbn [step]. apply String.eqb_neq in Hne. now rewrite Hne. }
  destruct (AppInv_run evs _ (AppInv_App env) p) as (Hp & _).
  fold a in Hp. fold s in Hp.
  split; [|split].
  - rewrite Hs'. now destruct (frame_useSearchResults (setEndpoint s e)) as (-> & _).
  - intros Hshort. rewrite Hs'.
    destruct (useSearchResults_short (setEndpoint s e) Hshort) as (Hst & Hlen & _).
    split; [|exact Hst]. unfold issuedSince. apply drop_ge.
    rewrite Hlen. reflexivity.
  - intros Hlen.
    destruct (App_panel_builds env evs p (trim (s_debounced s))) as [sparql Hb].
    fold a in Hb. fold s in Hb.
    destruct (useSearchResults_long (setEndpoint s e) sparql Hlen Hb)
      as (Hst & Hrq & Hc).
    split; [rewrite Hs', Hst; reflexivity|].
    exists sparql. split; [now rewrite <- Hp|].
    rewrite Hs'. unfold issuedSince. rewrite Hrq.
    change (length (s_requests s))
      with (length (s_requests (setEndpoint s e))).
    rewrite <- (length_useSearchResults_cleanup (setEndpoint s e)).
    now rewrite drop_app_length.
Qed.

Lemma App_endpoint_edit_witness :
  let a := appRun (App None)
             [SearchInput DrugPanel 0 "ibu"; Timeout DrugPanel] in
  s_endpoint (panelOf (appStep a (EndpointInput "/g")) AdePanel) = "/g"
  /\ loading (s_state (panelOf (appStep a (EndpointInput "/g")) DrugPanel)) = true.
Proof.
  intros a. split.
  - apply (App_endpoint_edit None
             [SearchInput DrugPanel 0 "ibu"; Timeout DrugPanel] "/g" AdePanel).
    discriminate.
  - apply (App_endpoint_edit None
             [SearchInput DrugPanel 0 "ibu"; Timeout DrugPanel] "/g" DrugPanel).
    + discriminate.
    + vm_compute. lia.
Defined.

(** ** What a panel displays *)

Lemma reachable_debounce_inv endpoint predicate evs :
  DebounceInv (run (mount endpoint predicate) evs).
Proof.
  apply DebounceInv_run. split.
  - now intros due v [= _ <-].
  - discriminate.
Qed.

Lemma screen_renders evs : forall a page,
  screen a evs = Some page -> renderApp (appRun a evs) = Some page.
Proof.
  induction evs as [|ev evs IH]; intros a page H; cbn [screen] in H.
  - destruct (renderApp a) as [shown|] eqn:E; [|discriminate].
    cbn [appRun foldl]. congruence.
  - destruct (renderApp a) as [shown|]; [|discriminate].
    cbn [appRun foldl]. now apply IH.
Qed.

Lemma renderApp_panel a page p :
  renderApp a = Some page ->
  exists below,
    outcomeView (s_state (panelOf a p)) = Some below
    /\ shownOf page p
       = whenText (hintOf p (s_query (panelOf a p))) Hint ++ below.
Proof.
  unfold renderApp, panelView. cbn [panelOf].
  destruct (outcomeView (s_state (drugPanel a))) as [d|] eqn:Ed; [|discriminate].
  destruct (outcomeView (s_state (adePanel a))) as [e|] eqn:Ee; [|discriminate].
  cbn. intros [= <-].
  destruct p; cbn [shownOf fst snd panelOf]; eexists; split;
    (eassumption || reflexivity).
Qed.

(** X21. In [App], as long as no render has thrown, once the typing in a
    panel has settled (no timeout is pending), a panel whose search box
    holds a text of trimmed length 0 or 1 displays its hint and nothing
    else. *)
Theorem hint_alone (env : option string) (evs : list AppEvent) (p : Panel)
    (page : list Shown * list Shown) :
  let a := appRun (App env) evs in
  screen (App env) evs = Some page ->
  s_timer (panelOf a p) = None ->
  String.length (trim (s_query (panelOf a p))) < 2 ->
  shownOf page p
  = [Hint match p with
          | DrugPanel => "Type at least 2 characters to search."
          | AdePanel => "Type at least 2 characters to search ADEs."
          end].
Proof.
  intros a Hscreen Ht Hshort.
  destruct (renderApp_panel a page p (screen_renders _ _ _ Hscreen))
    as (below & Hbelow & ->).
  destruct (app_panel_reachable env evs p) as [pevs Hp]. fold a in Hp.
  destruct (reachable_debounce_inv (DEFAULT_ENDPOINT env) (predicateOf p) pevs)
    as [_ Hd].
  destruct (reachable_inv (DEFAULT_ENDPOINT env) (predicateOf p) pevs)
    as [_ Hidle].
  rewrite <- Hp in Hd, Hidle. specialize (Hd Ht).
  destruct Hidle as [Hst _]; [now rewrite Hd|].
  rewrite Hst in Hbelow. cbn in Hbelow. injection Hbelow as <-.
  apply Nat.ltb_lt in Hshort.
  destruct p; cbn [hintOf]; unfold drugHint, adeHint; rewrite Hshort;
    reflexivity.
Qed.

Lemma hint_alone_witness :
  shownOf ([Hint "Type at least 2 characters to search."],
           [Hint "Type at least 2 characters to search ADEs."]) DrugPanel
  = [Hint "Type at least 2 characters to search."].
Proof.
  apply (hint_alone None [SearchInput DrugPanel 0 "i"; Timeout DrugPanel]
           DrugPanel).
  - vm_compute. reflexivity.
  - reflexivity.
  - vm_compute. lia.
Defined.



Lemma screen_app evs more : forall a,
  screen a (evs ++ more)
  = match screen a evs with
    | None => None
    | Some _ => screen (appRun a evs) more
    end.
Proof.
  induction evs as [|ev evs IH]; intros a.
  - cbn [app screen appRun foldl].
    destruct (renderApp a) eqn:E; [reflexivity|].
    destruct more; cbn [screen]; now rewrite E.
  - cbn [app screen appRun foldl].
    destruct (renderApp a); [apply IH|reflexivity].
Qed.

Lemma outcomeView_object_label st row props :
  In row (results st) -> label row = JObj props -> outcomeView st = None.
Proof.
  intros Hin Hl. unfold outcomeView.
  destruct (forallb _ (results st)) eqn:E; [|reflexivity].
  rewrite forallb_forall in E. specialize (E row Hin).
  rewrite Hl in E. discriminate.
Qed.

Lemma renderApp_blank a p :
  outcomeView (s_state (panelOf a p)) = None -> renderApp a = None.
Proof.
  intros H. unfold renderApp, panelView.
  destruct p; cbn [panelOf] in H |- *.
  - now rewrite H.
  - rewrite H. now destruct (outcomeView (s_state (drugPanel a))).
Qed.

(** X23. In [App], when a 2xx response arrives for a request of a panel
    that is neither aborted nor settled, all of its bindings are rows of
    the results format, and the short label value of one of them is a
    JSON object, the render of the table throws: the page is blank after
    that event and stays blank whatever events follow, for both panels. *)
Theorem object_label_blanks_page (env : option string) (evs : list AppEvent)
    (p : Panel) (i : nat) (rq : Request) (response : Response)
    (payload : json) (items : list json) (row : json)
    (props : list (string * json)) (later : list AppEvent) :
  s_requests (panelOf (appRun (App env) evs) p) !! i = Some rq ->
  rq_aborted rq = false -> rq_settled rq = false ->
  ok response = true ->
  bodyJson response = Return payload ->
  bindingsOf payload = JArr items ->
  Forall entityIsText items ->
  In row items ->
  labelOf row = JObj props ->
  screen (App env) (evs ++ Arrival p i (FetchResponse response) :: later) = None.
Proof.
  intros Hi Ha Hs Hok Hjson Hb Hrows Hin Hl.
  rewrite screen_app. destruct (screen (App env) evs); [|reflexivity].
  set (a := appRun (App env) evs) in *.
  cbn [screen]. destruct (renderApp a); [|reflexivity].
  assert (Hblank : renderApp (appStep a (Arrival p i (FetchResponse response)))
                   = None).
  { apply (renderApp_blank _ p). cbn [appStep].
    rewrite panelOf_withPanel_same.
    assert (Hne : items <> []) by (intros ->; destruct Hin).
    assert (Hst : s_state (step (panelOf a p)
                             (FetchSettle i (FetchResponse response)))
                  = {| loading := false; error := None; info := None;
                       results := map rowOfBinding items |}).
    { rewrite (settle_current _ i rq _ Hi Ha Hs).
      cbn [settleFetch]. unfold decodeResponse.
      rewrite Hok, Hjson. cbn [negb mbind completion_bind]. rewrite Hb.
      rewrite (mapRows_map items Hrows). cbn [mbind completion_bind].
      destruct items as [|r0 items]; [congruence|reflexivity]. }
    rewrite Hst.
    apply (outcomeView_object_label _ (rowOfBinding row) props).
    - cbn [results]. now apply in_map.
    - exact Hl. }
  destruct later as [|ev later]; cbn [screen]; now rewrite Hblank.
Qed.

Lemma object_label_blanks_page_witness :
  screen (App None)
    ([SearchInput AdePanel 0 "renal"; Timeout AdePanel]
     ++ Arrival AdePanel 0
          (FetchResponse
             {| status := 200; statusText := "OK";
                bodyText := Return EmptyString;
                bodyJson := Return (JObj [("results", JObj [("bindings",
                  JArr [JObj [("e", JObj [("value", JStr "http://x.org/a/1")]);
                              ("shortLabel",
                               JObj [("value", JObj [("lang", JStr "en")])])]])])]) |})
     :: [SearchInput DrugPanel 900 "i"; Timeout DrugPanel])
  = None.
Proof.
  eapply (object_label_blanks_page None
            [SearchInput AdePanel 0 "renal"; Timeout AdePanel] AdePanel 0);
    try (vm_compute; reflexivity).
  - constructor; [|constructor].
    intros v Hv. right. exists "http://x.org/a/1".
    vm_compute in Hv. now injection Hv as <-.
  - left. reflexivity.
  - vm_compute. reflexivity.
Defined.
